(** * iNode manufacturer-specific-data decoder (lib/index.js)

    A shallow embedding of the decoder of [lib/index.js] and the properties
    of its direct entry point [decodeMsd], of the decoder installed by
    [registerManufacturerSpecificDataDecoder] and of the Nav field pipeline.

    JavaScript objects live in a store and are handled through references,
    so that "the record the caller passed" and "a record created by the
    call" are different things; numbers are IEEE binary64 values.  Objects
    are plain ones: own data properties, no accessors, no prototype chain,
    not frozen.  The host's table of decoders holds functions and is passed
    in and out as a value of its own. *)

From Stdlib Require Import ZArith Strings.Byte PrimFloat Uint63.
From stdpp Require Import gmap strings list fin_maps pretty.

Set Warnings "-inexact-float".

(** ** JavaScript values, objects and the store *)

Module Js.

Definition loc := positive.

Inductive value :=
| VUndefined
| VNull
| VBoolean (b : bool)
| VNumber (n : float)
| VString (s : string)
| VObject (l : loc).

(** A plain object is a finite map from property keys to values; the
    store maps the references of the live objects to their contents.  The
    order in which an object enumerates its keys is not recorded. *)
Abbreviation object := (gmap string value).
Abbreviation heap := (gmap loc object).

Inductive exn :=
| Error (message : string)
| RangeError
| TypeError.

Inductive completion (A : Type) :=
| Normal (a : A)
| Throw (e : exn).
Arguments Normal {A} a.
Arguments Throw {A} e.

(** A computation runs on a store and ends normally or by a throw; in
    both cases the store it leaves behind is part of the outcome. *)
Definition M (A : Type) : Type := heap → completion A * heap.

(** A step that does not touch the store. *)
Definition lift {A} (c : completion A) : M A := λ h, (c, h).

Definition ret {A} (a : A) : M A := lift (Normal a).

Definition throw {A} (e : exn) : M A := lift (Throw e).

Definition bind {A B} (m : M A) (k : A → M B) : M B := λ h,
  match m h with
  | (Normal a, h') => k a h'
  | (Throw e, h') => (Throw e, h')
  end.

(** The integer [z] as a JavaScript number (exact for |z| < 2^53). *)
Definition number_of_Z (z : Z) : float :=
  if (z <? 0)%Z then PrimFloat.opp (PrimFloat.of_uint63 (Uint63.of_Z (- z)))
  else PrimFloat.of_uint63 (Uint63.of_Z z).

(** ToBoolean. *)
Definition truthy (v : value) : bool :=
  match v with
  | VUndefined | VNull => false
  | VBoolean b => b
  | VNumber n => negb (PrimFloat.is_zero n || PrimFloat.is_nan n)
  | VString s => negb (String.eqb s "")
  | VObject _ => true
  end.

(** [{ k1: v1, ... }]: a new object, at a reference not yet in use. *)
Definition alloc (o : object) : M value := λ h,
  let l := fresh (dom h) in (Normal (VObject l), <[l := o]> h).

(** [target.k = v] in strict mode: a [TypeError] unless [target] is an
    object.  References handed out by [alloc] are always live; a
    reference that is not in the store has no JavaScript counterpart and
    is refused as well. *)
Definition set_prop (target : value) (k : string) (v : value) : M unit := λ h,
  match target with
  | VObject l =>
      match h !! l with
      | Some o => (Normal tt, <[l := <[k := v]> o]> h)
      | None => (Throw TypeError, h)
      end
  | _ => (Throw TypeError, h)
  end.

(** [target.k] on a plain object (own properties only). *)
Definition get_prop (target : value) (k : string) : M value := λ h,
  match target with
  | VObject l =>
      match h !! l with
      | Some o => (Normal (default VUndefined (o !! k)), h)
      | None => (Throw TypeError, h)
      end
  | VUndefined | VNull => (Throw TypeError, h)
  | _ => (Normal VUndefined, h)
  end.

(** [Object.assign(target, source)] on plain objects: every own property
    of [source] is written to [target]. *)
Definition Object_assign (target source : value) : M value := λ h,
  match target, source with
  | VObject lt, VObject ls =>
      match h !! lt, h !! ls with
      | Some ot, Some os => (Normal target, <[lt := os ∪ ot]> h)
      | _, _ => (Throw TypeError, h)
      end
  | _, _ => (Throw TypeError, h)
  end.

(** ToInt32 of an integer, and the 32-bit operators of the source; on
    32-bit integers [&] and [|] are [Z.land] and [Z.lor]. *)
Definition ToInt32 (z : Z) : Z := ((z + 2 ^ 31) mod 2 ^ 32 - 2 ^ 31)%Z.

(** [a << n] for a shift count [n] below 32. *)
Definition shl (a n : Z) : Z := ToInt32 (Z.shiftl a n).

(** [!!n] for a 32-bit integer [n]. *)
Definition nonzero (n : Z) : bool := negb (n =? 0)%Z.

End Js.

Import Js.

Declare Scope js_scope.
Delimit Scope js_scope with js.
Notation "'let*' x ':=' m 'in' k" := (bind m (λ x, k))
  (at level 10, x name, m at level 100, k at level 200) : js_scope.
Open Scope js_scope.

(** ** Node's Buffer *)

Module NodeBuffer.

Abbreviation Buffer := (list byte).

Definition byte_val (b : byte) : Z := Z.of_N (Byte.to_N b).

(** [buffer[i]]: the byte at [i], or [undefined] (here [None]) when [i]
    is not an index of the buffer. *)
Definition index (buffer : Buffer) (i : Z) : option Z :=
  if (i <? 0)%Z then None else byte_val <$> buffer !! Z.to_nat i.

(** ToInt32 of [buffer[i]]: [undefined] becomes NaN and then 0. *)
Definition index_int32 (buffer : Buffer) (i : Z) : Z :=
  default 0%Z (index buffer i).

(** [buffer.readUInt16LE(offset)]: the two bytes at [offset], the low one
    first; a [RangeError] when they are not both inside the buffer.  A
    read leaves the store alone, so it is a plain completion. *)
Definition readUInt16LE (buffer : Buffer) (offset : Z) : completion Z :=
  match index buffer offset, index buffer (offset + 1) with
  | Some first, Some last => Normal (first + last * 2 ^ 8)%Z
  | _, _ => Throw RangeError
  end.

(** [buffer.readInt16LE(offset)]: the same two bytes read as a two's
    complement number. *)
Definition readInt16LE (buffer : Buffer) (offset : Z) : completion Z :=
  match index buffer offset, index buffer (offset + 1) with
  | Some first, Some last =>
      let val := (first + last * 2 ^ 8)%Z in
      Normal (if Z.testbit val 15 then val - 2 ^ 16 else val)%Z
  | _, _ => Throw RangeError
  end.

End NodeBuffer.

Import NodeBuffer.

(** ** lib/index.js *)

Module DeviceModel.
Definition Nav : Z := 0x89.
End DeviceModel.

(** The property key and the template-literal text of [buffer[1]]. *)
Definition ToString (deviceModel : option Z) : string :=
  match deviceModel with
  | None => "undefined"
  | Some n => pretty n
  end.

Definition decodeAccelerometer (buffer : Buffer) (msd : value) : M unit :=
  let* x := lift (readInt16LE buffer 2) in
  let* y := lift (readInt16LE buffer 4) in
  let* z := lift (readInt16LE buffer 6) in
  let* position := alloc
    (<["x" := VNumber (number_of_Z x / 16000)]>
     (<["y" := VNumber (number_of_Z y / 16000)]>
      (<["z" := VNumber (number_of_Z z / 16000)]> ∅))) in
  set_prop msd "position" position.

Definition decodeMagneticField (buffer : Buffer) (msd : value) : M unit :=
  let* x := lift (readInt16LE buffer 8) in
  let* y := lift (readInt16LE buffer 10) in
  let* z := lift (readInt16LE buffer 12) in
  let* magneticField := alloc
    (<["x" := VNumber (number_of_Z x / 10000)]>
     (<["y" := VNumber (number_of_Z y / 10000)]>
      (<["z" := VNumber (number_of_Z z / 10000)]> ∅))) in
  set_prop msd "magneticField" magneticField.

Definition decodeRtto (buffer : Buffer) (i : Z) (msd : value) : M unit :=
  set_prop msd "rtto" (VBoolean (nonzero (Z.land (index_int32 buffer i) 0x02))).

(** The three constants of [decodeAlarms]. *)
Definition battery_bits (buffer : Buffer) (batteryI : Z) : Z :=
  Z.land (shl (if (batteryI =? -1)%Z then 0%Z else index_int32 buffer batteryI) 13)
         0x8000.

Definition extended_bits (buffer : Buffer) (extendedI : Z) : M Z :=
  if (extendedI =? -1)%Z then ret 0%Z else lift (readUInt16LE buffer extendedI).

Definition alarms_mask (extended battery : Z) : Z := Z.lor extended battery.

Definition extended_flags (alarms : Z) : object :=
  <["moveAccelerometer" := VBoolean (nonzero (Z.land alarms 0x01))]>
  (<["levelAccelerometer" := VBoolean (nonzero (Z.land alarms 0x02))]>
  (<["levelTemperature" := VBoolean (nonzero (Z.land alarms 0x04))]>
  (<["levelHumidity" := VBoolean (nonzero (Z.land alarms 0x08))]>
  (<["contactChange" := VBoolean (nonzero (Z.land alarms 0x10))]>
  (<["moveStopped" := VBoolean (nonzero (Z.land alarms 0x20))]>
  (<["moveGTimer" := VBoolean (nonzero (Z.land alarms 0x40))]>
  (<["levelAccelerometerChange" := VBoolean (nonzero (Z.land alarms 0x80))]>
  (<["levelMagnetChange" := VBoolean (nonzero (Z.land alarms 0x100))]>
  (<["levelMagnetTimer" := VBoolean (nonzero (Z.land alarms 0x200))]>
   ∅))))))))).

Definition decodeAlarms (buffer : Buffer) (batteryI extendedI : Z) (msd : value)
  : M unit :=
  let battery := battery_bits buffer batteryI in
  let* extended := extended_bits buffer extendedI in
  let alarms := alarms_mask extended battery in
  let* o := alloc (<["lowBattery" := VBoolean (nonzero (Z.land alarms 0x8000))]> ∅) in
  let* _ := set_prop msd "alarms" o in
  if negb (extendedI =? -1)%Z then
    let* target := get_prop msd "alarms" in
    let* source := alloc (extended_flags alarms) in
    let* _ := Object_assign target source in
    ret tt
  else ret tt.

(** A decoder is a function of the buffer and the record. *)
Abbreviation decoder := (Buffer → value → M value).

Definition Nav_decoder : decoder := λ buffer msd,
  let* _ := set_prop msd "model" (VNumber (number_of_Z DeviceModel.Nav)) in
  let* _ := set_prop msd "modelLabel" (VString "iNode Nav") in
  let* _ := decodeAccelerometer buffer msd in
  let* _ := decodeMagneticField buffer msd in
  let* _ := decodeRtto buffer 0 msd in
  let* _ := decodeAlarms buffer 0 (-1) msd in
  ret VUndefined.

Definition msdDecoders : gmap string decoder :=
  <[ToString (Some DeviceModel.Nav) := Nav_decoder]> ∅.

(** What the host library [h5.bluetooth.hci] provides: the number of the
    manufacturer-specific-data type in its [EirDataType] enumeration and
    the enumeration's reverse lookup. *)
Record EirDataTypeT := {
  ManufacturerSpecificData : Z;
  label_of : Z → value
}.

Section Entry.

Variable EirDataType : EirDataTypeT.

Definition unknown_model_message (deviceModel : option Z) : string :=
  "Cannot decode iNode MSD: '" +:+ ToString deviceModel
    +:+ "' is not a valid device model!".

Definition decodeMsd (buffer : Buffer) (msd : value) : M value :=
  let deviceModel := index buffer 1 in
  let deviceModelDecoder := msdDecoders !! ToString deviceModel in
  match deviceModelDecoder with
  | None => throw (Error (unknown_model_message deviceModel))
  | Some deviceModelDecoder =>
      let* msd :=
        if negb (truthy msd) then
          let* companyIdentifier := lift (readUInt16LE buffer 0) in
          alloc
            (<["type" := VNumber (number_of_Z (ManufacturerSpecificData EirDataType))]>
             (<["typeLabel" := label_of EirDataType (ManufacturerSpecificData EirDataType)]>
              (<["companyIdentifier" := VNumber (number_of_Z companyIdentifier)]> ∅)))
        else ret msd in
      let* _ := deviceModelDecoder buffer msd in
      ret msd
  end.

(** [eirDataTypeDecoders] is the host's table of decoders, keyed by data
    type; the result is the table after the call. *)
Definition registerManufacturerSpecificDataDecoder
    (eirDataTypeDecoders : gmap string decoder) : gmap string decoder :=
  let slot := ToString (Some (ManufacturerSpecificData EirDataType)) in
  let originalDecoder := eirDataTypeDecoders !! slot in
  <[slot := λ buffer msd,
      let deviceModel := index buffer 1 in
      let deviceModelDecoder := msdDecoders !! ToString deviceModel in
      match deviceModelDecoder with
      | Some deviceModelDecoder =>
          let* _ := deviceModelDecoder buffer msd in ret VUndefined
      | None =>
          match originalDecoder with
          | Some originalDecoder =>
              let* _ := originalDecoder buffer msd in ret VUndefined
          | None => ret VUndefined
          end
      end]> eirDataTypeDecoders.

End Entry.

(** ** Reading a decoded record

    [lookup_prop h v k] is the own property [k] of the object [v] in the
    store [h], [path] follows several properties in a row, and [own_keys]
    is the set of the property keys of an object. *)

Definition lookup_prop (h : heap) (v : value) (k : string) : option value :=
  match v with
  | VObject l => h !! l ≫= (.!! k)
  | _ => None
  end.

Fixpoint path (h : heap) (v : value) (ks : list string) : option value :=
  match ks with
  | [] => Some v
  | k :: ks => lookup_prop h v k ≫= λ v', path h v' ks
  end.

Definition own_keys (h : heap) (v : value) : option (gset string) :=
  match v with
  | VObject l => dom <$> h !! l
  | _ => None
  end.

(** The record argument of a decoder: left out (or falsy), or an object of
    the store. *)
Definition record_arg (h : heap) (msd : value) : Prop :=
  truthy msd = false ∨ ∃ l, msd = VObject l ∧ is_Some (h !! l).

(** The signed 16-bit little-endian integer whose low byte is [lo] and
    whose high byte is [hi], in two's complement. *)
Definition int16_le (lo hi : Z) : Z :=
  let u := (lo + 256 * hi)%Z in
  if (u <? 2 ^ 15)%Z then u else (u - 2 ^ 16)%Z.

Definition uint16_le (lo hi : Z) : Z := (lo + 256 * hi)%Z.

(** ** The objects the decoders build, and the inputs of the examples *)

(** The object literal [{x: .., y: .., z: ..}] of the two vector fields. *)
Definition xyz_object (scale : float) (x y z : Z) : object :=
  <["x" := VNumber (number_of_Z x / scale)]>
  (<["y" := VNumber (number_of_Z y / scale)]>
  (<["z" := VNumber (number_of_Z z / scale)]> ∅)).

Definition lowBattery_object (alarms : Z) : object :=
  <["lowBattery" := VBoolean (nonzero (Z.land alarms 0x8000))]> ∅.

(** The record [o] after the Nav pipeline, with its three new objects at
    [lp], [lm] and [la]. *)
Definition Nav_record (buffer : Buffer) (o : object) (lp lm la : loc) : object :=
  <["alarms" := VObject la]>
  (<["rtto" := VBoolean (nonzero (Z.land (index_int32 buffer 0) 0x02))]>
  (<["magneticField" := VObject lm]>
  (<["position" := VObject lp]>
  (<["modelLabel" := VString "iNode Nav"]>
  (<["model" := VNumber (number_of_Z DeviceModel.Nav)]> o))))).

Definition Nav_decoded (buffer : Buffer) (l : loc) (o : object) (h h' : heap)
  : Prop :=
  ∃ lp lm la x y z u v w,
    readInt16LE buffer 2 = Normal x ∧ readInt16LE buffer 4 = Normal y ∧
    readInt16LE buffer 6 = Normal z ∧ readInt16LE buffer 8 = Normal u ∧
    readInt16LE buffer 10 = Normal v ∧ readInt16LE buffer 12 = Normal w ∧
    h !! lp = None ∧ h !! lm = None ∧ h !! la = None ∧
    lp ≠ l ∧ lm ≠ l ∧ la ≠ l ∧ lp ≠ lm ∧ lp ≠ la ∧ lm ≠ la ∧
    h' = <[l := Nav_record buffer o lp lm la]>
           (<[la := lowBattery_object (alarms_mask 0 (battery_bits buffer 0))]>
           (<[lm := xyz_object 10000 u v w]>
           (<[lp := xyz_object 16000 x y z]> h))).

(** The record [decodeMsd] creates when the caller passes none. *)
Definition new_record (E : EirDataTypeT) (companyIdentifier : Z) : object :=
  <["type" := VNumber (number_of_Z (ManufacturerSpecificData E))]>
  (<["typeLabel" := label_of E (ManufacturerSpecificData E)]>
  (<["companyIdentifier" := VNumber (number_of_Z companyIdentifier)]> ∅)).

(** An instance of the host's enumeration, to run the decoder on concrete
    buffers: 0xFF is the manufacturer-specific-data type of the Bluetooth
    assigned numbers. *)
Definition hciEirDataType : EirDataTypeT :=
  {| ManufacturerSpecificData := 0xFF;
     label_of := λ _, VString "ManufacturerSpecificData" |}.

(** A store with one empty object, at reference 1. *)
Definition one_object : heap := {[1%positive := ∅]}.

(** The buffer of the specification's example, and the same readings laid
    out as the decoder reads them (model byte at index 1, vectors from
    index 2, fourteen bytes). *)
Definition spec_buffer : Buffer :=
  [x4c; x00; x89; x01; x00; xf8; xff; x10; x00; x00; x00; x00; x00].

Definition nav_buffer : Buffer :=
  [x4c; x89; x01; x00; xf8; xff; x00; x00; x10; x00; x00; x00; x00; x00].

(** The field decoders of the Nav pipeline, in the order it runs them. *)
Definition field_decoders (buffer : Buffer) : list (value → M unit) :=
  [decodeAccelerometer buffer; decodeMagneticField buffer;
   decodeRtto buffer 0; decodeAlarms buffer 0 (-1)].

(** [run_each steps msd]: the steps applied to the record one after the
    other, stopping at the first that throws. *)
Fixpoint run_each (steps : list (value → M unit)) (msd : value) : M unit :=
  match steps with
  | [] => ret tt
  | step :: steps => let* _ := step msd in run_each steps msd
  end.

(** The entry of the manufacturer-specific-data slot after
    [registerManufacturerSpecificDataDecoder]. *)
Definition installed_decoder (E : EirDataTypeT)
    (eirDataTypeDecoders : gmap string decoder) : option decoder :=
  registerManufacturerSpecificDataDecoder E eirDataTypeDecoders
    !! ToString (Some (ManufacturerSpecificData E)).

(** ** Names for the properties of the decoded record *)

(** The ten flags of the extended alarm word: the flag tested with bit
    [2^i] is at position [i]. *)
Definition flag_names : list string :=
  ["moveAccelerometer"; "levelAccelerometer"; "levelTemperature";
   "levelHumidity"; "contactChange"; "moveStopped"; "moveGTimer";
   "levelAccelerometerChange"; "levelMagnetChange"; "levelMagnetTimer"].

(** The properties the Nav pipeline assigns, and the paths of the values
    it decodes. *)
Definition Nav_keys : list string :=
  ["model"; "modelLabel"; "position"; "magneticField"; "rtto"; "alarms"].

Definition Nav_leaves : list (list string) :=
  [["model"]; ["modelLabel"];
   ["position"; "x"]; ["position"; "y"]; ["position"; "z"];
   ["magneticField"; "x"]; ["magneticField"; "y"]; ["magneticField"; "z"];
   ["rtto"]; ["alarms"; "lowBattery"]].

(** [frame msd m]: however [m] ends, every object of the store other than
    the record [msd] is left as it was. *)
Definition frame {A} (msd : value) (m : M A) : Prop :=
  ∀ (h : heap) l' o',
    msd ≠ VObject l' → h !! l' = Some o' → (m h).2 !! l' = Some o'.

(** * Properties *)

(** ** Steps of a computation *)

Section Steps.

Context {A B : Type}.

Lemma bind_Normal (m : M A) (k : A → M B) h b h' :
  bind m k h = (Normal b, h') ↔
  ∃ a h1, m h = (Normal a, h1) ∧ k a h1 = (Normal b, h').
Proof.
  unfold bind. destruct (m h) as [[a|e] h1]; split.
  - eauto.
  - intros (a' & h1' & Hm & Hk). by simplify_eq.
  - intros ?; simplify_eq.
  - intros (a' & h1' & Hm & Hk). simplify_eq.
Qed.

Lemma bind_run (m : M A) (k : A → M B) h a h1 :
  m h = (Normal a, h1) → bind m k h = k a h1.
Proof. unfold bind. by intros ->. Qed.

Lemma bind_Throw (m : M A) (k : A → M B) h e h1 :
  m h = (Throw e, h1) → bind m k h = (Throw e, h1).
Proof. unfold bind. by intros ->. Qed.

Lemma bind_ext (m : M A) (k k' : A → M B) h :
  (∀ a h1, k a h1 = k' a h1) → bind m k h = bind m k' h.
Proof. intros Hk. unfold bind. by destruct (m h) as [[a|e] h1]. Qed.

Lemma lift_Normal (c : completion A) h a h' :
  lift c h = (Normal a, h') ↔ c = Normal a ∧ h' = h.
Proof. unfold lift. split; [intros ?; by simplify_eq|by intros [-> ->]]. Qed.

End Steps.

Lemma fresh_lookup (h : heap) : h !! fresh (dom h) = None.
Proof. apply not_elem_of_dom, is_fresh. Qed.

Lemma fresh_ne (h : heap) l o : h !! l = Some o → fresh (dom h) ≠ l.
Proof. intros Hl Heq. rewrite <- Heq, fresh_lookup in Hl. discriminate. Qed.

Lemma alloc_run (o : object) h :
  alloc o h = (Normal (VObject (fresh (dom h))), <[fresh (dom h) := o]> h).
Proof. reflexivity. Qed.

Lemma set_prop_run l o k v (h : heap) :
  h !! l = Some o →
  set_prop (VObject l) k v h = (Normal tt, <[l := <[k := v]> o]> h).
Proof. unfold set_prop. by intros ->. Qed.

Lemma set_prop_Normal target k v (h : heap) u h' :
  set_prop target k v h = (Normal u, h') →
  ∃ l o, target = VObject l ∧ h !! l = Some o ∧ h' = <[l := <[k := v]> o]> h.
Proof.
  unfold set_prop. destruct target as [| | | | |l]; try by (intros ?; simplify_eq).
  destruct (h !! l) as [o|] eqn:Hl; intros ?; simplify_eq. eauto.
Qed.

(** ** No step of the decoders throws a plain [Error] *)

Definition no_Error {A} (m : M A) : Prop :=
  ∀ h message, (m h).1 ≠ Throw (Error message).

Lemma no_Error_bind {A B} (m : M A) (k : A → M B) :
  no_Error m → (∀ a, no_Error (k a)) → no_Error (bind m k).
Proof.
  intros Hm Hk h message. unfold bind.
  destruct (m h) as [[a|e] h1] eqn:E.
  - apply Hk.
  - specialize (Hm h message). rewrite E in Hm. simpl in *.
    intros ?; simplify_eq.
Qed.

Lemma no_Error_ret {A} (a : A) : no_Error (ret a).
Proof. intros h message. discriminate. Qed.

Lemma no_Error_lift {A} (c : completion A) :
  (∀ message, c ≠ Throw (Error message)) → no_Error (lift c).
Proof. intros Hc h message. apply Hc. Qed.

Lemma no_Error_alloc o : no_Error (alloc o).
Proof. intros h message. discriminate. Qed.

Lemma no_Error_set_prop target k v : no_Error (set_prop target k v).
Proof.
  intros h message. unfold set_prop.
  destruct target; try discriminate. destruct (h !! l); discriminate.
Qed.

Lemma no_Error_get_prop target k : no_Error (get_prop target k).
Proof.
  intros h message. unfold get_prop.
  destruct target; try discriminate. destruct (h !! l); discriminate.
Qed.

Lemma no_Error_Object_assign target source :
  no_Error (Object_assign target source).
Proof.
  intros h message. unfold Object_assign.
  destruct target as [| | | | |lt]; try discriminate.
  destruct source as [| | | | |ls]; try discriminate.
  destruct (h !! lt); try discriminate. destruct (h !! ls); discriminate.
Qed.

Lemma readInt16LE_no_Error buffer offset message :
  readInt16LE buffer offset ≠ Throw (Error message).
Proof.
  unfold readInt16LE.
  destruct (index buffer offset); [destruct (index buffer (offset + 1))|];
    discriminate.
Qed.

Lemma readUInt16LE_no_Error buffer offset message :
  readUInt16LE buffer offset ≠ Throw (Error message).
Proof.
  unfold readUInt16LE.
  destruct (index buffer offset); [destruct (index buffer (offset + 1))|];
    discriminate.
Qed.

Create HintDb no_error.
#[local] Hint Resolve no_Error_ret no_Error_alloc no_Error_set_prop
  no_Error_get_prop no_Error_Object_assign readInt16LE_no_Error
  readUInt16LE_no_Error : no_error.

Ltac no_error :=
  repeat first
    [ apply no_Error_bind; [|intros ?]
    | apply no_Error_lift; intros ?
    | progress eauto with no_error ].

Lemma decodeAccelerometer_no_Error buffer msd :
  no_Error (decodeAccelerometer buffer msd).
Proof. unfold decodeAccelerometer. no_error. Qed.

Lemma decodeMagneticField_no_Error buffer msd :
  no_Error (decodeMagneticField buffer msd).
Proof. unfold decodeMagneticField. no_error. Qed.

Lemma decodeRtto_no_Error buffer i msd : no_Error (decodeRtto buffer i msd).
Proof. unfold decodeRtto. no_error. Qed.

Lemma decodeAlarms_no_Error buffer batteryI extendedI msd :
  no_Error (decodeAlarms buffer batteryI extendedI msd).
Proof.
  unfold decodeAlarms, extended_bits.
  destruct (extendedI =? -1)%Z; simpl; no_error.
Qed.

Lemma Nav_decoder_no_Error buffer msd : no_Error (Nav_decoder buffer msd).
Proof.
  unfold Nav_decoder.
  pose proof decodeAccelerometer_no_Error. pose proof decodeMagneticField_no_Error.
  pose proof decodeRtto_no_Error. pose proof decodeAlarms_no_Error.
  no_error.
Qed.

(** ** Bytes and reads of the buffer *)

Lemma byte_val_range (b : byte) : (0 ≤ byte_val b < 256)%Z.
Proof.
  unfold byte_val. pose proof (Byte.to_N_bounded b) as Hb. lia.
Qed.

Lemma index_Some buffer i n :
  index buffer i = Some n →
  (0 ≤ i < Z.of_nat (length buffer))%Z ∧ (0 ≤ n < 256)%Z.
Proof.
  unfold index. destruct (Z.ltb_spec i 0); [discriminate|].
  destruct (buffer !! Z.to_nat i) as [b|] eqn:Hb; [|discriminate].
  intros [= <-]. apply lookup_lt_Some in Hb.
  split; [lia|apply byte_val_range].
Qed.

Lemma index_lt buffer i :
  (0 ≤ i < Z.of_nat (length buffer))%Z → ∃ n, index buffer i = Some n.
Proof.
  intros Hi. unfold index. destruct (Z.ltb_spec i 0); [lia|].
  destruct (lookup_lt_is_Some_2 buffer (Z.to_nat i)) as [b Hb]; [lia|].
  rewrite Hb. eauto.
Qed.

Lemma index_short buffer i :
  (Z.of_nat (length buffer) ≤ i)%Z → index buffer i = None.
Proof.
  intros Hi. unfold index. destruct (Z.ltb_spec i 0); [done|].
  rewrite lookup_ge_None_2; [done|lia].
Qed.

Lemma index_take buffer (n : nat) i :
  (i < Z.of_nat n)%Z → index (take n buffer) i = index buffer i.
Proof.
  intros Hi. unfold index. destruct (Z.ltb_spec i 0); [done|].
  rewrite lookup_take_lt; [done|lia].
Qed.

Lemma testbit_15 lo hi :
  (0 ≤ lo < 256)%Z → (0 ≤ hi < 256)%Z →
  (if Z.testbit (lo + hi * 2 ^ 8) 15 then lo + hi * 2 ^ 8 - 2 ^ 16
   else lo + hi * 2 ^ 8)%Z = int16_le lo hi.
Proof.
  intros Hlo Hhi. unfold int16_le.
  replace (lo + 256 * hi)%Z with (lo + hi * 2 ^ 8)%Z by lia.
  set (val := (lo + hi * 2 ^ 8)%Z). assert (0 ≤ val < 2 ^ 16)%Z by (subst val; lia).
  destruct (Z.testbit val 15) eqn:Hb.
  - apply Z.testbit_true in Hb; [|lia].
    destruct (Z.ltb_spec val (2 ^ 15)) as [Hlt|Hge]; [|done].
    rewrite Z.div_small in Hb by lia. discriminate.
  - apply Z.testbit_false in Hb; [|lia].
    destruct (Z.ltb_spec val (2 ^ 15)) as [Hlt|Hge]; [done|].
    assert (val / 2 ^ 15 = 1)%Z as Hq.
    { symmetry. apply (Z.div_unique val (2 ^ 15) 1 (val - 2 ^ 15)); lia. }
    rewrite Hq in Hb. discriminate.
Qed.

Lemma readInt16LE_Normal buffer offset v :
  readInt16LE buffer offset = Normal v ↔
  ∃ lo hi, index buffer offset = Some lo ∧ index buffer (offset + 1) = Some hi
           ∧ v = int16_le lo hi.
Proof.
  unfold readInt16LE. split.
  - destruct (index buffer offset) as [lo|] eqn:Hlo; [|discriminate].
    destruct (index buffer (offset + 1)) as [hi|] eqn:Hhi; [|discriminate].
    pose proof (index_Some _ _ _ Hlo) as [_ ?].
    pose proof (index_Some _ _ _ Hhi) as [_ ?].
    cbv zeta. rewrite testbit_15 by done. intros [= <-]. eauto.
  - intros (lo & hi & Hlo & Hhi & ->). rewrite Hlo, Hhi.
    apply index_Some in Hlo as [_ ?], Hhi as [_ ?].
    cbv zeta. by rewrite testbit_15.
Qed.

Lemma readUInt16LE_Normal buffer offset v :
  readUInt16LE buffer offset = Normal v ↔
  ∃ lo hi, index buffer offset = Some lo ∧ index buffer (offset + 1) = Some hi
           ∧ v = uint16_le lo hi.
Proof.
  unfold readUInt16LE, uint16_le. split.
  - destruct (index buffer offset) as [lo|]; [|discriminate].
    destruct (index buffer (offset + 1)) as [hi|]; [|discriminate].
    intros [= <-]. exists lo, hi. split_and!; [done..|lia].
  - intros (lo & hi & -> & -> & ->). f_equal. lia.
Qed.

Lemma readInt16LE_long buffer offset :
  (0 ≤ offset)%Z → (offset + 2 ≤ Z.of_nat (length buffer))%Z →
  ∃ v, readInt16LE buffer offset = Normal v.
Proof.
  intros H0 Hlen.
  destruct (index_lt buffer offset) as [lo Hlo]; [lia|].
  destruct (index_lt buffer (offset + 1)) as [hi Hhi]; [lia|].
  exists (int16_le lo hi). apply readInt16LE_Normal. eauto.
Qed.

Lemma readInt16LE_short buffer offset :
  (Z.of_nat (length buffer) < offset + 2)%Z →
  readInt16LE buffer offset = Throw RangeError.
Proof.
  intros Hlen. unfold readInt16LE.
  rewrite (index_short buffer (offset + 1)) by lia.
  by destruct (index buffer offset).
Qed.

Lemma readUInt16LE_long buffer offset :
  (0 ≤ offset)%Z → (offset + 2 ≤ Z.of_nat (length buffer))%Z →
  ∃ v, readUInt16LE buffer offset = Normal v.
Proof.
  intros H0 Hlen.
  destruct (index_lt buffer offset) as [lo Hlo]; [lia|].
  destruct (index_lt buffer (offset + 1)) as [hi Hhi]; [lia|].
  exists (uint16_le lo hi). apply readUInt16LE_Normal. eauto.
Qed.

Lemma readInt16LE_take buffer (n : nat) offset :
  (offset + 2 ≤ Z.of_nat n)%Z →
  readInt16LE (take n buffer) offset = readInt16LE buffer offset.
Proof.
  intros Hn. unfold readInt16LE. by rewrite !index_take by lia.
Qed.

Lemma readUInt16LE_take buffer (n : nat) offset :
  (offset + 2 ≤ Z.of_nat n)%Z →
  readUInt16LE (take n buffer) offset = readUInt16LE buffer offset.
Proof.
  intros Hn. unfold readUInt16LE. by rewrite !index_take by lia.
Qed.

(** ** Running the field decoders on an object of the store *)

Lemma bind_lift_Normal {A B} (a : A) (k : A → M B) h :
  bind (lift (Normal a)) k h = k a h.
Proof. reflexivity. Qed.

Lemma bind_alloc {B} (o : object) (k : value → M B) h :
  bind (alloc o) k h = k (VObject (fresh (dom h))) (<[fresh (dom h) := o]> h).
Proof. reflexivity. Qed.

Lemma bind_set_prop {B} l o key v (k : unit → M B) (h : heap) :
  h !! l = Some o →
  bind (set_prop (VObject l) key v) k h = k tt (<[l := <[key := v]> o]> h).
Proof. intros Hl. unfold bind. by rewrite (set_prop_run _ _ _ _ _ Hl). Qed.

Lemma lookup_after_alloc (h : heap) l o o' :
  h !! l = Some o → <[fresh (dom h) := o']> h !! l = Some o.
Proof. intros Hl. rewrite lookup_insert_ne; [done|by eapply fresh_ne]. Qed.

Ltac step_bind H :=
  let a := fresh "a" in let h1 := fresh "h" in let Hs := fresh "Hs" in
  apply bind_Normal in H as (a & h1 & Hs & H).

Ltac step_lift H :=
  let a := fresh "a" in let h1 := fresh "h" in let Hs := fresh "Hs" in
  apply bind_Normal in H as (a & h1 & Hs & H);
  apply lift_Normal in Hs as [Hs ->].

Lemma decodeAccelerometer_run buffer l o (h : heap) x y z :
  readInt16LE buffer 2 = Normal x → readInt16LE buffer 4 = Normal y →
  readInt16LE buffer 6 = Normal z → h !! l = Some o →
  decodeAccelerometer buffer (VObject l) h =
    (Normal tt, <[l := <["position" := VObject (fresh (dom h))]> o]>
                  (<[fresh (dom h) := xyz_object 16000 x y z]> h)).
Proof.
  intros Hx Hy Hz Hl. unfold decodeAccelerometer. rewrite Hx, Hy, Hz.
  rewrite !bind_lift_Normal, bind_alloc.
  by rewrite (set_prop_run _ o) by by apply lookup_after_alloc.
Qed.

Lemma decodeAccelerometer_inv buffer l o (h : heap) u h' :
  h !! l = Some o →
  decodeAccelerometer buffer (VObject l) h = (Normal u, h') →
  ∃ x y z,
    readInt16LE buffer 2 = Normal x ∧ readInt16LE buffer 4 = Normal y ∧
    readInt16LE buffer 6 = Normal z ∧
    h' = <[l := <["position" := VObject (fresh (dom h))]> o]>
           (<[fresh (dom h) := xyz_object 16000 x y z]> h).
Proof.
  intros Hl H. pose proof H as H0. unfold decodeAccelerometer in H0.
  step_lift H0. step_lift H0. step_lift H0.
  rewrite (decodeAccelerometer_run _ _ _ _ _ _ _ Hs Hs0 Hs1 Hl) in H.
  simplify_eq. eauto 10.
Qed.

Lemma decodeMagneticField_run buffer l o (h : heap) x y z :
  readInt16LE buffer 8 = Normal x → readInt16LE buffer 10 = Normal y →
  readInt16LE buffer 12 = Normal z → h !! l = Some o →
  decodeMagneticField buffer (VObject l) h =
    (Normal tt, <[l := <["magneticField" := VObject (fresh (dom h))]> o]>
                  (<[fresh (dom h) := xyz_object 10000 x y z]> h)).
Proof.
  intros Hx Hy Hz Hl. unfold decodeMagneticField. rewrite Hx, Hy, Hz.
  rewrite !bind_lift_Normal, bind_alloc.
  by rewrite (set_prop_run _ o) by by apply lookup_after_alloc.
Qed.

Lemma decodeMagneticField_inv buffer l o (h : heap) u h' :
  h !! l = Some o →
  decodeMagneticField buffer (VObject l) h = (Normal u, h') →
  ∃ x y z,
    readInt16LE buffer 8 = Normal x ∧ readInt16LE buffer 10 = Normal y ∧
    readInt16LE buffer 12 = Normal z ∧
    h' = <[l := <["magneticField" := VObject (fresh (dom h))]> o]>
           (<[fresh (dom h) := xyz_object 10000 x y z]> h).
Proof.
  intros Hl H. pose proof H as H0. unfold decodeMagneticField in H0.
  step_lift H0. step_lift H0. step_lift H0.
  rewrite (decodeMagneticField_run _ _ _ _ _ _ _ Hs Hs0 Hs1 Hl) in H.
  simplify_eq. eauto 10.
Qed.

Lemma decodeRtto_run buffer i l o (h : heap) :
  h !! l = Some o →
  decodeRtto buffer i (VObject l) h =
    (Normal tt,
     <[l := <["rtto" := VBoolean (nonzero (Z.land (index_int32 buffer i) 0x02))]> o]> h).
Proof. intros Hl. unfold decodeRtto. by rewrite (set_prop_run _ o). Qed.

(** [decodeAlarms] without an extended offset. *)
Lemma decodeAlarms_run_absent buffer batteryI l o (h : heap) :
  h !! l = Some o →
  decodeAlarms buffer batteryI (-1) (VObject l) h =
    (Normal tt,
     <[l := <["alarms" := VObject (fresh (dom h))]> o]>
       (<[fresh (dom h) :=
            lowBattery_object (alarms_mask 0 (battery_bits buffer batteryI))]> h)).
Proof.
  intros Hl. unfold decodeAlarms, extended_bits.
  change (-1 =? -1)%Z with true. cbv iota. unfold ret at 1.
  rewrite bind_lift_Normal. cbv zeta. rewrite bind_alloc.
  by rewrite (bind_set_prop _ o) by by apply lookup_after_alloc.
Qed.

(** [decodeAlarms] with an extended offset whose word can be read. *)
Lemma decodeAlarms_run_extended buffer batteryI extendedI extended l o (h : heap) :
  extendedI ≠ (-1)%Z →
  readUInt16LE buffer extendedI = Normal extended →
  h !! l = Some o →
  let alarms := alarms_mask extended (battery_bits buffer batteryI) in
  let la := fresh (dom h) in
  let h1 := <[l := <["alarms" := VObject la]> o]>
              (<[la := lowBattery_object alarms]> h) in
  decodeAlarms buffer batteryI extendedI (VObject l) h =
    (Normal tt,
     <[la := extended_flags alarms ∪ lowBattery_object alarms]>
       (<[fresh (dom h1) := extended_flags alarms]> h1)).
Proof.
  intros Hne Hext Hl alarms la h1. unfold decodeAlarms, extended_bits.
  apply Z.eqb_neq in Hne. rewrite Hne, Hext. cbv iota.
  rewrite bind_lift_Normal. cbv zeta. rewrite bind_alloc.
  rewrite (bind_set_prop _ o) by by apply lookup_after_alloc.
  simpl negb. cbv iota.
  assert (la ≠ l) as Hla by (by eapply fresh_ne).
  assert (h1 !! l = Some (<["alarms" := VObject la]> o)) as Hl1
    by apply lookup_insert_eq.
  assert (h1 !! la = Some (lowBattery_object alarms)) as Hla1.
  { unfold h1. rewrite lookup_insert_ne by done. apply lookup_insert_eq. }
  change (bind (get_prop (VObject l) "alarms")
            (λ target, let* source := alloc (extended_flags alarms) in
                       let* _ := Object_assign target source in ret tt) h1
          = (Normal tt,
             <[la := extended_flags alarms ∪ lowBattery_object alarms]>
               (<[fresh (dom h1) := extended_flags alarms]> h1))).
  clearbody h1.
  unfold bind at 1. unfold get_prop. rewrite Hl1, lookup_insert_eq.
  simpl default. rewrite bind_alloc.
  unfold bind, Object_assign.
  rewrite (lookup_after_alloc _ _ _ _ Hla1), lookup_insert_eq.
  reflexivity.
Qed.

(** ** The Nav pipeline *)

Lemma Nav_decoder_inv buffer msd (h : heap) r h' :
  Nav_decoder buffer msd h = (Normal r, h') →
  ∃ l o, msd = VObject l ∧ h !! l = Some o ∧ r = VUndefined
         ∧ Nav_decoded buffer l o h h'.
Proof.
  intros H. unfold Nav_decoder in H.
  step_bind H. apply set_prop_Normal in Hs as (l & o & -> & Hl & ->).
  rewrite (bind_set_prop l (<["model" := VNumber (number_of_Z DeviceModel.Nav)]> o))
    in H by apply lookup_insert_eq.
  rewrite insert_insert_eq in H.
  set (o2 := <["modelLabel" := _]> _) in H.
  set (h2 := <[l := o2]> h) in H.
  assert (h2 !! l = Some o2) as Hl2 by apply lookup_insert_eq.
  step_bind H. apply (decodeAccelerometer_inv _ _ _ _ _ _ Hl2) in Hs
    as (x & y & z & Hx & Hy & Hz & ->).
  pose proof (fresh_lookup h2) as Hlp. set (lp := fresh (dom h2)) in *.
  clearbody lp.
  set (o3 := <["position" := _]> _) in H.
  set (h3 := <[l := o3]> _) in H.
  assert (h3 !! l = Some o3) as Hl3 by apply lookup_insert_eq.
  step_bind H. apply (decodeMagneticField_inv _ _ _ _ _ _ Hl3) in Hs
    as (u & v & w & Hu & Hv & Hw & ->).
  pose proof (fresh_lookup h3) as Hlm. set (lm := fresh (dom h3)) in *.
  clearbody lm.
  set (o4 := <["magneticField" := _]> _) in H.
  set (h4 := <[l := o4]> _) in H.
  assert (h4 !! l = Some o4) as Hl4 by apply lookup_insert_eq.
  rewrite (bind_run _ _ _ _ _ (decodeRtto_run _ _ _ _ _ Hl4)) in H.
  set (o5 := <["rtto" := _]> _) in H.
  set (h5 := <[l := o5]> _) in H.
  assert (h5 !! l = Some o5) as Hl5 by apply lookup_insert_eq.
  rewrite (bind_run _ _ _ _ _ (decodeAlarms_run_absent _ _ _ _ _ Hl5)) in H.
  pose proof (fresh_lookup h5) as Hla. set (la := fresh (dom h5)) in *.
  clearbody la.
  unfold ret, lift in H. simplify_eq.
  exists l, o. split_and!; [done..|].
  unfold h5, h4, h3, h2 in Hla, Hlm, Hlp.
  repeat (apply lookup_insert_None in Hla as [Hla ?]).
  repeat (apply lookup_insert_None in Hlm as [Hlm ?]).
  repeat (apply lookup_insert_None in Hlp as [Hlp ?]).
  exists lp, lm, la, x, y, z, u, v, w. split_and!; try done.
  apply map_eq. intros i. unfold h5, h4, h3, h2, Nav_record, o5, o4, o3, o2.
  destruct (decide (i = l)) as [->|]; [by rewrite !lookup_insert_eq|].
  destruct (decide (i = la)) as [->|];
    [by repeat first [rewrite lookup_insert_eq|rewrite lookup_insert_ne by done]|].
  destruct (decide (i = lm)) as [->|];
    [by repeat first [rewrite lookup_insert_eq|rewrite lookup_insert_ne by done]|].
  destruct (decide (i = lp)) as [->|];
    [by repeat first [rewrite lookup_insert_eq|rewrite lookup_insert_ne by done]|].
  by rewrite !lookup_insert_ne by done.
Qed.

Lemma Nav_decoder_total buffer l o (h : heap) :
  14 ≤ length buffer → h !! l = Some o →
  ∃ h', Nav_decoder buffer (VObject l) h = (Normal VUndefined, h').
Proof.
  intros Hlen Hl.
  destruct (readInt16LE_long buffer 2) as [x Hx]; [lia..|].
  destruct (readInt16LE_long buffer 4) as [y Hy]; [lia..|].
  destruct (readInt16LE_long buffer 6) as [z Hz]; [lia..|].
  destruct (readInt16LE_long buffer 8) as [u Hu]; [lia..|].
  destruct (readInt16LE_long buffer 10) as [v Hv]; [lia..|].
  destruct (readInt16LE_long buffer 12) as [w Hw]; [lia..|].
  unfold Nav_decoder.
  rewrite (bind_set_prop _ _ _ _ _ _ Hl).
  rewrite (bind_set_prop l (<["model" := VNumber (number_of_Z DeviceModel.Nav)]> o))
    by apply lookup_insert_eq.
  erewrite bind_run;
    [|eapply decodeAccelerometer_run; [exact Hx|exact Hy|exact Hz|apply lookup_insert_eq]].
  erewrite bind_run;
    [|eapply decodeMagneticField_run; [exact Hu|exact Hv|exact Hw|apply lookup_insert_eq]].
  erewrite bind_run; [|apply decodeRtto_run, lookup_insert_eq].
  erewrite bind_run; [|apply decodeAlarms_run_absent, lookup_insert_eq].
  eauto.
Qed.

(** A buffer too short for the first field makes the pipeline throw. *)
Lemma Nav_decoder_short buffer l o (h : heap) :
  length buffer < 4 → h !! l = Some o →
  (Nav_decoder buffer (VObject l) h).1 = Throw RangeError.
Proof.
  intros Hlen Hl. unfold Nav_decoder.
  rewrite (bind_set_prop _ _ _ _ _ _ Hl).
  rewrite (bind_set_prop l (<["model" := VNumber (number_of_Z DeviceModel.Nav)]> o))
    by apply lookup_insert_eq.
  unfold decodeAccelerometer. rewrite (readInt16LE_short buffer 2) by lia.
  reflexivity.
Qed.

(** The pipeline reads the first fourteen bytes only. *)
Lemma index_int32_take buffer (n : nat) i :
  (i < Z.of_nat n)%Z → index_int32 (take n buffer) i = index_int32 buffer i.
Proof. intros Hi. unfold index_int32. by rewrite index_take. Qed.

Lemma Nav_decoder_take buffer msd :
  Nav_decoder (take 14 buffer) msd = Nav_decoder buffer msd.
Proof.
  unfold Nav_decoder, decodeAccelerometer, decodeMagneticField, decodeRtto,
    decodeAlarms, battery_bits, extended_bits.
  change (-1 =? -1)%Z with true. change (0 =? -1)%Z with false. cbv iota.
  rewrite !readInt16LE_take by lia. rewrite !index_int32_take by lia.
  reflexivity.
Qed.

(** ** The table of decoders *)

Lemma ToString_Nav deviceModel :
  ToString deviceModel = ToString (Some DeviceModel.Nav) →
  deviceModel = Some DeviceModel.Nav.
Proof.
  destruct deviceModel as [n|]; simpl.
  - intros Heq. f_equal. by apply (inj pretty).
  - vm_compute. discriminate.
Qed.

Lemma msdDecoders_known :
  msdDecoders !! ToString (Some DeviceModel.Nav) = Some Nav_decoder.
Proof. apply lookup_insert_eq. Qed.

Lemma msdDecoders_unknown deviceModel :
  deviceModel ≠ Some DeviceModel.Nav →
  msdDecoders !! ToString deviceModel = None.
Proof.
  intros Hne. unfold msdDecoders. rewrite lookup_insert_ne; [done|].
  intros Heq. symmetry in Heq. by apply ToString_Nav in Heq.
Qed.

Lemma msdDecoders_lookup deviceModel d :
  msdDecoders !! ToString deviceModel = Some d ↔
  deviceModel = Some DeviceModel.Nav ∧ d = Nav_decoder.
Proof.
  split.
  - intros Hd. destruct (decide (deviceModel = Some DeviceModel.Nav)) as [->|Hne].
    + rewrite msdDecoders_known in Hd. by simplify_eq.
    + rewrite msdDecoders_unknown in Hd by done. discriminate.
  - intros [-> ->]. apply msdDecoders_known.
Qed.

(** ** What the Nav pipeline leaves in the store *)

Ltac lookups :=
  repeat first [rewrite lookup_insert_eq | rewrite lookup_insert_ne by done].

Lemma path_cons (h : heap) l (o : object) k ks v :
  h !! l = Some o → o !! k = Some v →
  path h (VObject l) (k :: ks) = path h v ks.
Proof. intros Hl Hk. cbn [path lookup_prop]. by rewrite Hl; simpl; rewrite Hk. Qed.

Ltac path_step :=
  erewrite path_cons;
    [|by lookups|unfold Nav_record, xyz_object, lowBattery_object; by lookups].

Lemma dom_lowBattery_object alarms :
  dom (lowBattery_object alarms) = {["lowBattery"]}.
Proof.
  unfold lowBattery_object. rewrite dom_insert_L, dom_empty_L.
  apply union_empty_r_L.
Qed.

Lemma not_elem_of_keys (k : string) ks :
  k ∉ ks ↔ Forall (λ k', k ≠ k') ks.
Proof.
  induction ks as [|k' ks IH].
  - split; [constructor|]. intros _ Hin. by apply elem_of_nil in Hin.
  - rewrite not_elem_of_cons, Forall_cons. by rewrite IH.
Qed.

Section Nav_decoded.

Context (buffer : Buffer) (l : loc) (o : object) (h h' : heap).
Hypothesis Hnav : Nav_decoded buffer l o h h'.

Lemma Nav_decoded_top k :
  k ∉ ["alarms"; "magneticField"; "position"] →
  path h' (VObject l) [k] =
  (if decide (k = "rtto") then
     Some (VBoolean (nonzero (Z.land (index_int32 buffer 0) 0x02)))
   else if decide (k = "modelLabel") then Some (VString "iNode Nav")
   else if decide (k = "model") then
     Some (VNumber (number_of_Z DeviceModel.Nav))
   else o !! k).
Proof.
  destruct Hnav as (lp & lm & la & x & y & z & u & v & w & _ & _ & _ & _ & _
    & _ & _ & _ & _ & _ & _ & _ & _ & _ & _ & ->).
  intros Hk.
  assert (k ≠ "alarms" ∧ k ≠ "magneticField" ∧ k ≠ "position")
    as (? & ? & ?) by (rewrite !not_elem_of_cons in Hk; tauto).
  cbn [path lookup_prop]. rewrite lookup_insert_eq. cbn [mbind option_bind].
  unfold Nav_record. lookups.
  repeat (case_decide; [subst k; by lookups|]).
  lookups. by destruct (o !! k).
Qed.

Lemma Nav_decoded_model :
  path h' (VObject l) ["model"] = Some (VNumber (number_of_Z DeviceModel.Nav)).
Proof.
  rewrite Nav_decoded_top; [done|].
  apply not_elem_of_keys. by repeat constructor.
Qed.

Lemma Nav_decoded_modelLabel :
  path h' (VObject l) ["modelLabel"] = Some (VString "iNode Nav").
Proof.
  rewrite Nav_decoded_top; [done|].
  apply not_elem_of_keys. by repeat constructor.
Qed.

Lemma Nav_decoded_rtto :
  path h' (VObject l) ["rtto"] =
  Some (VBoolean (nonzero (Z.land (index_int32 buffer 0) 0x02))).
Proof.
  rewrite Nav_decoded_top; [done|].
  apply not_elem_of_keys. by repeat constructor.
Qed.

Lemma Nav_decoded_frame k :
  k ∉ ["model"; "modelLabel"; "position"; "magneticField"; "rtto"; "alarms"] →
  path h' (VObject l) [k] = o !! k.
Proof.
  intros Hk. rewrite !not_elem_of_cons in Hk.
  rewrite Nav_decoded_top by (rewrite !not_elem_of_cons; tauto).
  repeat (case_decide; [tauto|]). done.
Qed.

Lemma Nav_decoded_position x y z :
  readInt16LE buffer 2 = Normal x → readInt16LE buffer 4 = Normal y →
  readInt16LE buffer 6 = Normal z →
  path h' (VObject l) ["position"; "x"] = Some (VNumber (number_of_Z x / 16000)) ∧
  path h' (VObject l) ["position"; "y"] = Some (VNumber (number_of_Z y / 16000)) ∧
  path h' (VObject l) ["position"; "z"] = Some (VNumber (number_of_Z z / 16000)).
Proof.
  destruct Hnav as (lp & lm & la & x' & y' & z' & u & v & w & Hx & Hy & Hz
    & _ & _ & _ & _ & _ & _ & ? & ? & ? & ? & ? & ? & ->).
  intros Hx' Hy' Hz'. rewrite Hx in Hx'. rewrite Hy in Hy'. rewrite Hz in Hz'.
  simplify_eq. split_and!; by do 2 path_step.
Qed.

Lemma Nav_decoded_magneticField u v w :
  readInt16LE buffer 8 = Normal u → readInt16LE buffer 10 = Normal v →
  readInt16LE buffer 12 = Normal w →
  path h' (VObject l) ["magneticField"; "x"]
    = Some (VNumber (number_of_Z u / 10000)) ∧
  path h' (VObject l) ["magneticField"; "y"]
    = Some (VNumber (number_of_Z v / 10000)) ∧
  path h' (VObject l) ["magneticField"; "z"]
    = Some (VNumber (number_of_Z w / 10000)).
Proof.
  destruct Hnav as (lp & lm & la & x & y & z & u' & v' & w' & _ & _ & _
    & Hu & Hv & Hw & ? & ? & ? & ? & ? & ? & ? & ? & ? & ->).
  intros Hu' Hv' Hw'. rewrite Hu in Hu'. rewrite Hv in Hv'. rewrite Hw in Hw'.
  simplify_eq. split_and!; by do 2 path_step.
Qed.

Lemma Nav_decoded_alarms :
  ∃ a, path h' (VObject l) ["alarms"] = Some a ∧
       own_keys h' a = Some {["lowBattery"]} ∧
       path h' a ["lowBattery"]
         = Some (VBoolean (nonzero (Z.land (battery_bits buffer 0) 0x8000))).
Proof.
  destruct Hnav as (lp & lm & la & x & y & z & u & v & w & _ & _ & _
    & _ & _ & _ & ? & ? & ? & ? & ? & ? & ? & ? & ? & ->).
  exists (VObject la). split_and!.
  - by path_step.
  - cbn [own_keys]. lookups. cbn [fmap option_fmap option_map].
    by rewrite dom_lowBattery_object.
  - path_step. by rewrite Z.lor_0_l.
Qed.

(** The objects the store already had, other than the record, are left
    as they were. *)
Lemma Nav_decoded_others l' o' :
  l' ≠ l → h !! l' = Some o' → h' !! l' = Some o'.
Proof.
  destruct Hnav as (lp & lm & la & x & y & z & u & v & w & _ & _ & _
    & _ & _ & _ & ? & ? & ? & ? & ? & ? & ? & ? & ? & ->).
  intros Hne Hl'.
  rewrite !lookup_insert_ne; [done|congruence..].
Qed.

End Nav_decoded.

(** ** The direct entry point *)

Section decodeMsd.

Variable E : EirDataTypeT.

Lemma decodeMsd_unknown buffer msd (h : heap) :
  index buffer 1 ≠ Some DeviceModel.Nav →
  decodeMsd E buffer msd h =
    (Throw (Error (unknown_model_message (index buffer 1))), h).
Proof.
  intros Hne. unfold decodeMsd. by rewrite msdDecoders_unknown.
Qed.

Lemma decodeMsd_supplied buffer l (h : heap) :
  index buffer 1 = Some DeviceModel.Nav →
  decodeMsd E buffer (VObject l) h =
    bind (Nav_decoder buffer (VObject l)) (λ _, ret (VObject l)) h.
Proof.
  intros Hi. unfold decodeMsd. by rewrite Hi, msdDecoders_known.
Qed.

Lemma decodeMsd_created buffer msd (h : heap) :
  index buffer 1 = Some DeviceModel.Nav → truthy msd = false →
  decodeMsd E buffer msd h =
    bind (bind (lift (readUInt16LE buffer 0)) (λ ci, alloc (new_record E ci)))
         (λ msd, bind (Nav_decoder buffer msd) (λ _, ret msd)) h.
Proof.
  intros Hi Ht. unfold decodeMsd. by rewrite Hi, msdDecoders_known, Ht.
Qed.

Lemma decodeMsd_no_Error buffer msd :
  index buffer 1 = Some DeviceModel.Nav → no_Error (decodeMsd E buffer msd).
Proof.
  intros Hi. unfold decodeMsd. rewrite Hi, msdDecoders_known.
  pose proof Nav_decoder_no_Error. destruct (truthy msd); simpl; no_error.
Qed.

Lemma decodeMsd_inv buffer msd (h : heap) r h' :
  decodeMsd E buffer msd h = (Normal r, h') →
  index buffer 1 = Some DeviceModel.Nav ∧
  ∃ l o, r = VObject l ∧
    ((msd = VObject l ∧ h !! l = Some o ∧ Nav_decoded buffer l o h h') ∨
     (truthy msd = false ∧ h !! l = None ∧
      (∃ ci, readUInt16LE buffer 0 = Normal ci ∧ o = new_record E ci) ∧
      Nav_decoded buffer l o (<[l := o]> h) h')).
Proof.
  intros H.
  destruct (decide (index buffer 1 = Some DeviceModel.Nav)) as [Hi|Hi];
    [|rewrite decodeMsd_unknown in H by done; discriminate].
  split; [done|]. destruct (truthy msd) eqn:Ht.
  - unfold decodeMsd in H. rewrite Hi, msdDecoders_known, Ht in H.
    simpl negb in H. cbv iota in H. unfold ret at 1 in H.
    rewrite bind_lift_Normal in H. step_bind H.
    apply Nav_decoder_inv in Hs as (l & o & -> & Hl & -> & Hnav).
    apply lift_Normal in H as [[= <-] ->]. exists l, o. eauto.
  - rewrite decodeMsd_created in H by done.
    apply bind_Normal in H as (msd' & h1 & Hnew & H).
    apply bind_Normal in Hnew as (ci & h0 & Hci & Hnew).
    apply lift_Normal in Hci as [Hci ->]. rewrite alloc_run in Hnew.
    injection Hnew as <- <-.
    apply bind_Normal in H as (u & h2 & Hnav & H).
    apply Nav_decoder_inv in Hnav as (l & o & [= <-] & Hl & -> & Hnav).
    rewrite lookup_insert_eq in Hl. injection Hl as <-.
    apply lift_Normal in H as [[= <-] ->].
    exists (fresh (dom h)), (new_record E ci). split; [done|]. right.
    split_and!; [done|apply fresh_lookup|eauto|done].
Qed.

Lemma decodeMsd_total buffer msd (h : heap) :
  14 ≤ length buffer → index buffer 1 = Some DeviceModel.Nav →
  record_arg h msd →
  ∃ r h', decodeMsd E buffer msd h = (Normal r, h').
Proof.
  intros Hlen Hi [Ht|(l & -> & [o Hl])].
  - rewrite decodeMsd_created by done.
    destruct (readUInt16LE_long buffer 0) as [ci Hci]; [lia..|].
    assert (bind (lift (readUInt16LE buffer 0)) (λ ci, alloc (new_record E ci)) h
            = (Normal (VObject (fresh (dom h))),
               <[fresh (dom h) := new_record E ci]> h)) as Hnew
      by by rewrite Hci.
    rewrite (bind_run _ _ _ _ _ Hnew).
    destruct (Nav_decoder_total buffer (fresh (dom h)) (new_record E ci)
                (<[fresh (dom h) := new_record E ci]> h) Hlen) as [h' Hnav];
      [apply lookup_insert_eq|].
    rewrite (bind_run _ _ _ _ _ Hnav). eauto.
  - rewrite decodeMsd_supplied by done.
    destruct (Nav_decoder_total buffer l o h Hlen Hl) as [h' Hnav].
    rewrite (bind_run _ _ _ _ _ Hnav). eauto.
Qed.

Lemma decodeMsd_take buffer msd (h : heap) :
  decodeMsd E (take 14 buffer) msd h = decodeMsd E buffer msd h.
Proof.
  assert (index (take 14 buffer) 1 = index buffer 1) as Hi1
    by (apply index_take; lia).
  destruct (decide (index buffer 1 = Some DeviceModel.Nav)) as [Hi|Hi].
  - destruct (truthy msd) eqn:Ht.
    + unfold decodeMsd. rewrite Hi1, Hi, msdDecoders_known, Ht.
      simpl negb. cbv iota. unfold ret at 1 3. rewrite !bind_lift_Normal.
      by rewrite Nav_decoder_take.
    + rewrite !decodeMsd_created by congruence.
      rewrite readUInt16LE_take by lia. apply bind_ext.
      intros msd' h1. by rewrite Nav_decoder_take.
  - rewrite !decodeMsd_unknown by congruence. by rewrite Hi1.
Qed.

End decodeMsd.

(** ** The alarm mask *)

Lemma index_byte buffer i n :
  index buffer i = Some n → ∃ c : byte, n = byte_val c.
Proof.
  unfold index. destruct (i <? 0)%Z; [discriminate|].
  destruct (buffer !! Z.to_nat i) as [c|]; [|discriminate].
  intros [= <-]. eauto.
Qed.

Lemma shl_13_byte (c : byte) :
  Z.land (shl (byte_val c) 13) 0x8000 =
  (if nonzero (Z.land (byte_val c) 0x04) then 0x8000 else 0)%Z.
Proof. destruct c; reflexivity. Qed.

Lemma battery_bits_present buffer batteryI b :
  index buffer batteryI = Some b →
  battery_bits buffer batteryI =
  (if nonzero (Z.land b 0x04) then 0x8000 else 0)%Z.
Proof.
  intros Hb. unfold battery_bits, index_int32.
  destruct (index_Some _ _ _ Hb) as [Hi _].
  destruct (Z.eqb_spec batteryI (-1)) as [->|_]; [lia|].
  rewrite Hb. simpl default.
  destruct (index_byte _ _ _ Hb) as [c ->]. apply shl_13_byte.
Qed.

Lemma lowBattery_of_mask extended battery :
  battery = 0x8000%Z ∨ battery = 0%Z →
  nonzero (Z.land (alarms_mask extended battery) 0x8000) =
  nonzero battery || nonzero (Z.land extended 0x8000).
Proof.
  unfold alarms_mask, nonzero. intros [->| ->].
  - rewrite Z.land_lor_distr_l. change (Z.land 32768 32768) with 32768%Z.
    simpl. destruct (Z.eqb_spec (Z.lor (Z.land extended 32768) 32768) 0)
      as [Heq|]; [|done].
    apply Z.lor_eq_0_iff in Heq as [_ ?]. discriminate.
  - by rewrite Z.lor_0_r.
Qed.

Lemma extended_flags_lowBattery alarms :
  extended_flags alarms !! "lowBattery" = None.
Proof. unfold extended_flags. by lookups. Qed.

(** * The claims *)

(** C1, the claim as it is written, fails: in the buffer [[0x02]] bit 0x02
    of the byte at the battery offset is set, and [decodeAlarms] sets
    [alarms.lowBattery] to false. *)
Lemma lowBattery_bit_0x02_counterexample :
  let run := decodeAlarms [x02] 0 (-1) (VObject 1%positive) one_object in
  index [x02] 0 = Some 2%Z ∧ nonzero (Z.land 2 0x02) = true ∧
  run.1 = Normal tt ∧
  path run.2 (VObject 1%positive) ["alarms"; "lowBattery"] = Some (VBoolean false).
Proof. vm_compute. by split_and!. Qed.

(** C1, amended.  Let [b] be the byte at a present battery offset.  The
    battery part of the alarm mask is 0x8000 when bit 0x04 of [b] is set
    and 0 otherwise, so no other bit of [b] reaches the mask.  Without an
    extended offset [alarms.lowBattery] is true iff bit 0x04 of [b] is set;
    with an extended offset it is true iff that bit or bit 0x8000 of the
    extended word is set. *)
Theorem lowBattery_from_battery_byte buffer batteryI b l o (h : heap) :
  index buffer batteryI = Some b → h !! l = Some o →
  battery_bits buffer batteryI
    = (if nonzero (Z.land b 0x04) then 0x8000 else 0)%Z ∧
  (∃ h', decodeAlarms buffer batteryI (-1) (VObject l) h = (Normal tt, h') ∧
         path h' (VObject l) ["alarms"; "lowBattery"]
           = Some (VBoolean (nonzero (Z.land b 0x04)))) ∧
  (∀ extendedI extended,
     extendedI ≠ (-1)%Z → readUInt16LE buffer extendedI = Normal extended →
     ∃ h', decodeAlarms buffer batteryI extendedI (VObject l) h = (Normal tt, h') ∧
           path h' (VObject l) ["alarms"; "lowBattery"]
             = Some (VBoolean (nonzero (Z.land b 0x04)
                               || nonzero (Z.land extended 0x8000)))).
Proof.
  intros Hb Hl. pose proof (battery_bits_present _ _ _ Hb) as Hbits.
  assert (fresh (dom h) ≠ l) as Hla by by eapply fresh_ne.
  assert (∀ extended,
    nonzero (Z.land (alarms_mask extended (battery_bits buffer batteryI)) 0x8000)
    = nonzero (Z.land b 0x04) || nonzero (Z.land extended 0x8000)) as Hmask.
  { intros extended. rewrite lowBattery_of_mask, Hbits;
      by destruct (nonzero (Z.land b 4)); auto. }
  split_and!; [done| |].
  - rewrite (decodeAlarms_run_absent _ _ _ _ _ Hl). eexists. split; [done|].
    do 2 path_step. by rewrite Hmask, orb_false_r.
  - intros extendedI extended Hne Hext.
    pose proof (decodeAlarms_run_extended buffer batteryI extendedI extended
                  l o h Hne Hext Hl) as Hrun.
    cbv zeta in Hrun. rewrite Hrun. eexists. split; [done|].
    set (h1 := <[l := _]> (<[fresh (dom h) := _]> h)).
    assert (h1 !! l = Some (<["alarms" := VObject (fresh (dom h))]> o)) as Hl1
      by apply lookup_insert_eq.
    assert (fresh (dom h1) ≠ l) as Hls by by eapply fresh_ne.
    erewrite path_cons; [|by rewrite !lookup_insert_ne by done|by lookups].
    erewrite path_cons; [|by apply lookup_insert_eq|].
    + reflexivity.
    + rewrite lookup_union_r by apply extended_flags_lowBattery.
      unfold lowBattery_object. by rewrite lookup_insert_eq, Hmask.
Qed.

Lemma lowBattery_from_battery_byte_witness :
  battery_bits [x04; x89; x00; x80] 0 = 0x8000%Z ∧
  (∃ h', decodeAlarms [x04; x89; x00; x80] 0 (-1) (VObject 1%positive) one_object
           = (Normal tt, h') ∧
         path h' (VObject 1%positive) ["alarms"; "lowBattery"]
           = Some (VBoolean true)) ∧
  (∀ extendedI extended,
     extendedI ≠ (-1)%Z →
     readUInt16LE [x04; x89; x00; x80] extendedI = Normal extended →
     ∃ h', decodeAlarms [x04; x89; x00; x80] 0 extendedI (VObject 1%positive)
             one_object = (Normal tt, h') ∧
           path h' (VObject 1%positive) ["alarms"; "lowBattery"]
             = Some (VBoolean (true || nonzero (Z.land extended 0x8000)))).
Proof.
  apply (lowBattery_from_battery_byte [x04; x89; x00; x80] 0 4 1%positive ∅
           one_object); reflexivity.
Defined.

(** C5.  Without an extended offset the alarms object that [decodeAlarms]
    stores in the record has the key [lowBattery] and no other; this is how
    the Nav pipeline calls it, so the alarms of every record the pipeline
    returns have that single key. *)
Theorem alarms_keys_without_extended buffer batteryI l o (h : heap) :
  h !! l = Some o →
  (∃ h' a, decodeAlarms buffer batteryI (-1) (VObject l) h = (Normal tt, h') ∧
           path h' (VObject l) ["alarms"] = Some a ∧
           own_keys h' a = Some {["lowBattery"]}) ∧
  (14 ≤ length buffer →
   ∃ h', Nav_decoder buffer (VObject l) h = (Normal VUndefined, h')) ∧
  (∀ r h', Nav_decoder buffer (VObject l) h = (Normal r, h') →
           ∃ a, path h' (VObject l) ["alarms"] = Some a ∧
                own_keys h' a = Some {["lowBattery"]}).
Proof.
  intros Hl. assert (fresh (dom h) ≠ l) as Hla by by eapply fresh_ne.
  split_and!.
  - rewrite (decodeAlarms_run_absent _ _ _ _ _ Hl).
    eexists _, (VObject (fresh (dom h))). split_and!; [done| |].
    + by path_step.
    + cbn [own_keys]. lookups. cbn [fmap option_fmap option_map].
      by rewrite dom_lowBattery_object.
  - intros Hlen. by eapply Nav_decoder_total.
  - intros r h' Hrun.
    apply Nav_decoder_inv in Hrun as (l' & o' & [= <-] & Hl' & -> & Hnav).
    destruct (Nav_decoded_alarms _ _ _ _ _ Hnav) as (a & ? & ? & _). eauto.
Qed.

Lemma alarms_keys_without_extended_witness :
  (∃ h' a, decodeAlarms [x06; x89] 0 (-1) (VObject 1%positive) one_object
             = (Normal tt, h') ∧
           path h' (VObject 1%positive) ["alarms"] = Some a ∧
           own_keys h' a = Some {["lowBattery"]}) ∧
  (14 ≤ length [x06; x89] →
   ∃ h', Nav_decoder [x06; x89] (VObject 1%positive) one_object
           = (Normal VUndefined, h')) ∧
  (∀ r h', Nav_decoder [x06; x89] (VObject 1%positive) one_object = (Normal r, h') →
           ∃ a, path h' (VObject 1%positive) ["alarms"] = Some a ∧
                own_keys h' a = Some {["lowBattery"]}).
Proof.
  apply (alarms_keys_without_extended [x06; x89] 0 1%positive ∅ one_object).
  reflexivity.
Defined.

Lemma path_single (h : heap) l k :
  path h (VObject l) [k] = h !! l ≫= (.!! k).
Proof.
  cbn [path lookup_prop]. destruct (h !! l) as [o|]; [|done]. simpl.
  by destruct (o !! k).
Qed.

Lemma path_via (h : heap) v k ks a :
  path h v [k] = Some a → path h v (k :: ks) = path h a ks.
Proof.
  cbn [path]. destruct (lookup_prop h v k) as [a'|]; [|done]. simpl.
  by intros [= ->].
Qed.

Lemma readInt16LE_at buffer offset :
  (0 ≤ offset)%Z → (offset + 2 ≤ Z.of_nat (length buffer))%Z →
  readInt16LE buffer offset =
  Normal (int16_le (index_int32 buffer offset) (index_int32 buffer (offset + 1))).
Proof.
  intros H0 Hlen. apply readInt16LE_Normal. unfold index_int32.
  destruct (index_lt buffer offset) as [lo ->]; [lia|].
  destruct (index_lt buffer (offset + 1)) as [hi ->]; [lia|]. eauto.
Qed.

Lemma readUInt16LE_at buffer offset :
  (0 ≤ offset)%Z → (offset + 2 ≤ Z.of_nat (length buffer))%Z →
  readUInt16LE buffer offset =
  Normal (uint16_le (index_int32 buffer offset) (index_int32 buffer (offset + 1))).
Proof.
  intros H0 Hlen. apply readUInt16LE_Normal. unfold index_int32.
  destruct (index_lt buffer offset) as [lo ->]; [lia|].
  destruct (index_lt buffer (offset + 1)) as [hi ->]; [lia|]. eauto.
Qed.

(** C2, the claim as it is written, fails: the byte at index 1 of the
    example buffer is 0x00, so [decodeMsd] throws instead of returning. *)
Lemma spec_buffer_counterexample :
  (decodeMsd hciEirDataType spec_buffer VUndefined ∅).1 =
  Throw (Error "Cannot decode iNode MSD: '0' is not a valid device model!").
Proof. vm_compute. reflexivity. Qed.

(** C2, amended.  Decoding the 13-byte example buffer without a record
    fails with the unknown-device-model error for identifier 0 and leaves
    the store as it was.  The 14-byte buffer that carries the same readings
    where the decoder reads them decodes to companyIdentifier 0x894C,
    model 0x89, position (0.0000625, -0.0005, 0), magneticField
    (0.0016, 0, 0), rtto false and, bit 0x04 of byte 0x4C being set,
    alarms.lowBattery true. *)
Theorem spec_buffer_decoding E (h : heap) :
  decodeMsd E spec_buffer VUndefined h =
    (Throw (Error "Cannot decode iNode MSD: '0' is not a valid device model!"), h) ∧
  ∃ r h', decodeMsd E nav_buffer VUndefined h = (Normal r, h') ∧
    path h' r ["companyIdentifier"] = Some (VNumber 35148) ∧
    path h' r ["model"] = Some (VNumber 137) ∧
    path h' r ["position"; "x"] = Some (VNumber 0.0000625) ∧
    path h' r ["position"; "y"] = Some (VNumber (-0.0005)) ∧
    path h' r ["position"; "z"] = Some (VNumber 0) ∧
    path h' r ["magneticField"; "x"] = Some (VNumber 0.0016) ∧
    path h' r ["magneticField"; "y"] = Some (VNumber 0) ∧
    path h' r ["magneticField"; "z"] = Some (VNumber 0) ∧
    path h' r ["rtto"] = Some (VBoolean false) ∧
    path h' r ["alarms"; "lowBattery"] = Some (VBoolean true).
Proof.
  split; [by rewrite decodeMsd_unknown|].
  destruct (decodeMsd_total E nav_buffer VUndefined h) as (r & h' & Hrun);
    [simpl; lia|done|by left|].
  exists r, h'. split; [done|].
  apply decodeMsd_inv in Hrun
    as (_ & l & o & -> & [(? & _)|(_ & _ & (ci & Hci & ->) & Hnav)]); [done|].
  injection Hci as <-.
  destruct (Nav_decoded_position _ _ _ _ _ Hnav 1 (-8) 0) as (Hx & Hy & Hz);
    [done..|].
  destruct (Nav_decoded_magneticField _ _ _ _ _ Hnav 16 0 0) as (Hu & Hv & Hw);
    [done..|].
  destruct (Nav_decoded_alarms _ _ _ _ _ Hnav) as (a & Ha & _ & Hlow).
  rewrite (Nav_decoded_frame _ _ _ _ _ Hnav "companyIdentifier")
    by (apply not_elem_of_keys; by repeat constructor).
  rewrite (Nav_decoded_model _ _ _ _ _ Hnav), (Nav_decoded_rtto _ _ _ _ _ Hnav).
  rewrite Hx, Hy, Hz, Hu, Hv, Hw, (path_via _ _ _ _ _ Ha), Hlow.
  by split_and!.
Qed.

(** C3.  When the byte at index 1 of the buffer has no decoder in
    [msdDecoders] (also when the buffer has no such byte), [decodeMsd]
    throws the [Error] whose message names that identifier, and the store
    is as it was.  When it has one, [decodeMsd] throws no [Error]. *)
Theorem decodeMsd_unknown_device_model E buffer msd (h : heap) :
  (msdDecoders !! ToString (index buffer 1) = None →
   decodeMsd E buffer msd h =
     (Throw (Error ("Cannot decode iNode MSD: '" +:+ ToString (index buffer 1)
                    +:+ "' is not a valid device model!")), h)) ∧
  (is_Some (msdDecoders !! ToString (index buffer 1)) →
   ∀ message, (decodeMsd E buffer msd h).1 ≠ Throw (Error message)).
Proof.
  split.
  - intros Hnone. unfold decodeMsd. by rewrite Hnone.
  - intros [d Hd] message. apply msdDecoders_lookup in Hd as [Hi _].
    by apply decodeMsd_no_Error.
Qed.

Lemma decodeMsd_unknown_device_model_witness :
  decodeMsd hciEirDataType [x4c; xff] VUndefined ∅ =
    (Throw (Error "Cannot decode iNode MSD: '255' is not a valid device model!"), ∅) ∧
  ∀ message,
    (decodeMsd hciEirDataType nav_buffer VUndefined ∅).1 ≠ Throw (Error message).
Proof.
  split.
  - apply (proj1 (decodeMsd_unknown_device_model hciEirDataType [x4c; xff]
                    VUndefined ∅)).
    reflexivity.
  - apply (proj2 (decodeMsd_unknown_device_model hciEirDataType nav_buffer
                    VUndefined ∅)).
    exists Nav_decoder. reflexivity.
Defined.

(** C10.  On a buffer of fewer than two bytes [decodeMsd] throws the
    unknown-device-model error, for the identifier [undefined]; the store,
    and with it any record the caller passed, is exactly as it was. *)
Theorem decodeMsd_short_buffer E buffer msd (h : heap) :
  length buffer < 2 →
  decodeMsd E buffer msd h =
    (Throw (Error
       "Cannot decode iNode MSD: 'undefined' is not a valid device model!"), h).
Proof.
  intros Hlen. rewrite decodeMsd_unknown; rewrite index_short by lia; done.
Qed.

Lemma decodeMsd_short_buffer_witness :
  decodeMsd hciEirDataType [x4c] (VObject 1%positive) one_object =
    (Throw (Error
       "Cannot decode iNode MSD: 'undefined' is not a valid device model!"),
     one_object).
Proof.
  apply (decodeMsd_short_buffer hciEirDataType [x4c] (VObject 1%positive)
           one_object).
  simpl. lia.
Defined.

(** C6.  For a buffer of at least 14 bytes with the Nav model byte, decoded
    with no record or into a record of the store, [position.x], [.y], [.z]
    are the signed 16-bit little-endian integers at offsets 2, 4, 6 divided
    by 16000, and [magneticField.x], [.y], [.z] those at offsets 8, 10, 12
    divided by 10000: each field is the result of one binary64 division
    of the integer read by the constant. *)
Theorem Nav_vectors_scaled E buffer msd (h : heap) :
  14 ≤ length buffer → index buffer 1 = Some DeviceModel.Nav →
  record_arg h msd →
  ∃ r h', decodeMsd E buffer msd h = (Normal r, h') ∧
    path h' r ["position"; "x"] = Some (VNumber
      (number_of_Z (int16_le (index_int32 buffer 2) (index_int32 buffer 3)) / 16000)) ∧
    path h' r ["position"; "y"] = Some (VNumber
      (number_of_Z (int16_le (index_int32 buffer 4) (index_int32 buffer 5)) / 16000)) ∧
    path h' r ["position"; "z"] = Some (VNumber
      (number_of_Z (int16_le (index_int32 buffer 6) (index_int32 buffer 7)) / 16000)) ∧
    path h' r ["magneticField"; "x"] = Some (VNumber
      (number_of_Z (int16_le (index_int32 buffer 8) (index_int32 buffer 9)) / 10000)) ∧
    path h' r ["magneticField"; "y"] = Some (VNumber
      (number_of_Z (int16_le (index_int32 buffer 10) (index_int32 buffer 11)) / 10000)) ∧
    path h' r ["magneticField"; "z"] = Some (VNumber
      (number_of_Z (int16_le (index_int32 buffer 12) (index_int32 buffer 13)) / 10000)).
Proof.
  intros Hlen Hi Hmsd.
  destruct (decodeMsd_total E buffer msd h Hlen Hi Hmsd) as (r & h' & Hrun).
  exists r, h'. split; [done|].
  assert (∃ l o h0, r = VObject l ∧ Nav_decoded buffer l o h0 h')
    as (l & o & h0 & -> & Hnav).
  { apply decodeMsd_inv in Hrun as (_ & l & o & -> & [(_ & _ & ?)|(_ & _ & _ & ?)]);
      eauto. }
  destruct (Nav_decoded_position _ _ _ _ _ Hnav _ _ _
              (readInt16LE_at buffer 2 ltac:(lia) ltac:(lia))
              (readInt16LE_at buffer 4 ltac:(lia) ltac:(lia))
              (readInt16LE_at buffer 6 ltac:(lia) ltac:(lia))) as (Hx & Hy & Hz).
  destruct (Nav_decoded_magneticField _ _ _ _ _ Hnav _ _ _
              (readInt16LE_at buffer 8 ltac:(lia) ltac:(lia))
              (readInt16LE_at buffer 10 ltac:(lia) ltac:(lia))
              (readInt16LE_at buffer 12 ltac:(lia) ltac:(lia))) as (Hu & Hv & Hw).
  by split_and!.
Qed.

Lemma Nav_vectors_scaled_witness :
  ∃ r h', decodeMsd hciEirDataType nav_buffer VUndefined ∅ = (Normal r, h') ∧
    path h' r ["position"; "x"] = Some (VNumber (number_of_Z 1 / 16000)) ∧
    path h' r ["position"; "y"] = Some (VNumber (number_of_Z (-8) / 16000)) ∧
    path h' r ["position"; "z"] = Some (VNumber (number_of_Z 0 / 16000)) ∧
    path h' r ["magneticField"; "x"] = Some (VNumber (number_of_Z 16 / 10000)) ∧
    path h' r ["magneticField"; "y"] = Some (VNumber (number_of_Z 0 / 10000)) ∧
    path h' r ["magneticField"; "z"] = Some (VNumber (number_of_Z 0 / 10000)).
Proof.
  apply (Nav_vectors_scaled hciEirDataType nav_buffer VUndefined ∅).
  - simpl. lia.
  - reflexivity.
  - left. reflexivity.
Defined.

(** C8.  Two buffers with the same first fourteen bytes decode alike: from
    the same record and store, [decodeMsd] and the Nav decoder end with the
    same outcome and the same store, hence the same position,
    magneticField, rtto and alarms.  No byte from index 14 on is read. *)
Theorem decoding_reads_first_14_bytes E buffer1 buffer2 msd (h : heap) :
  take 14 buffer1 = take 14 buffer2 →
  decodeMsd E buffer1 msd h = decodeMsd E buffer2 msd h ∧
  Nav_decoder buffer1 msd h = Nav_decoder buffer2 msd h.
Proof.
  intros Htake. split.
  - by rewrite <- (decodeMsd_take E buffer1), <- (decodeMsd_take E buffer2), Htake.
  - by rewrite <- (Nav_decoder_take buffer1), <- (Nav_decoder_take buffer2), Htake.
Qed.

Lemma decoding_reads_first_14_bytes_witness :
  decodeMsd hciEirDataType (nav_buffer ++ [x00; x01]) VUndefined ∅
    = decodeMsd hciEirDataType (nav_buffer ++ [xff]) VUndefined ∅ ∧
  Nav_decoder (nav_buffer ++ [x00; x01]) VUndefined ∅
    = Nav_decoder (nav_buffer ++ [xff]) VUndefined ∅.
Proof.
  apply (decoding_reads_first_14_bytes hciEirDataType (nav_buffer ++ [x00; x01])
           (nav_buffer ++ [xff]) VUndefined ∅).
  reflexivity.
Defined.

(** C7, the claim as it is written, fails: the two-byte buffer
    [[0x4C, 0x89]] has the Nav model byte, and [decodeMsd] throws a
    [RangeError] on it instead of returning, with and without a record; a
    record the caller passed has been written to by then. *)
Lemma decodeMsd_record_short_buffer_counterexample :
  let created := decodeMsd hciEirDataType [x4c; x89] VUndefined ∅ in
  let supplied :=
    decodeMsd hciEirDataType [x4c; x89] (VObject 1%positive) one_object in
  index [x4c; x89] 1 = Some DeviceModel.Nav ∧
  created.1 = Throw RangeError ∧
  supplied.1 = Throw RangeError ∧
  path supplied.2 (VObject 1%positive) ["model"] = Some (VNumber 137).
Proof. vm_compute. by split_and!. Qed.

(** C7, amended.  Let the buffer have at least 14 bytes and the Nav model
    byte at index 1.  Called without a record (the argument is falsy),
    [decodeMsd] returns an object that was not in the store before, whose
    [companyIdentifier] is the little-endian 16-bit value of bytes 0 and 1
    and whose [type] and [typeLabel] are those of manufacturer-specific
    data.  Called with a record of the store, it returns that same record,
    written to ([model] is set), with the [companyIdentifier] it had,
    absent if it was absent. *)
Theorem decodeMsd_record E buffer (h : heap) :
  14 ≤ length buffer → index buffer 1 = Some DeviceModel.Nav →
  (∀ msd, truthy msd = false →
     ∃ l h',
       decodeMsd E buffer msd h = (Normal (VObject l), h') ∧
       h !! l = None ∧
       path h' (VObject l) ["companyIdentifier"] = Some (VNumber (number_of_Z
         (uint16_le (index_int32 buffer 0) (index_int32 buffer 1)))) ∧
       path h' (VObject l) ["type"]
         = Some (VNumber (number_of_Z (ManufacturerSpecificData E))) ∧
       path h' (VObject l) ["typeLabel"]
         = Some (label_of E (ManufacturerSpecificData E))) ∧
  (∀ l o, h !! l = Some o →
     ∃ h',
       decodeMsd E buffer (VObject l) h = (Normal (VObject l), h') ∧
       path h' (VObject l) ["companyIdentifier"] = o !! "companyIdentifier" ∧
       path h' (VObject l) ["model"]
         = Some (VNumber (number_of_Z DeviceModel.Nav))).
Proof.
  intros Hlen Hi. split.
  - intros msd Ht.
    destruct (decodeMsd_total E buffer msd h Hlen Hi) as (r & h' & Hrun);
      [by left|].
    pose proof Hrun as Hinv.
    apply decodeMsd_inv in Hinv
      as (_ & l & o & -> & [(-> & _)|(_ & Hl & (ci & Hci & ->) & Hnav)]);
      [done|].
    exists l, h'. split; [done|]. split; [done|].
    apply readUInt16LE_Normal in Hci as (lo & hi & Hlo & Hhi & ->).
    unfold index_int32. change (0 + 1)%Z with 1%Z in Hhi. rewrite Hlo, Hhi.
    rewrite !(Nav_decoded_frame _ _ _ _ _ Hnav)
      by (apply not_elem_of_keys; by repeat constructor).
    by split_and!.
  - intros l o Hl.
    destruct (decodeMsd_total E buffer (VObject l) h Hlen Hi) as (r & h' & Hrun);
      [right; exists l; by rewrite Hl|].
    pose proof Hrun as Hinv.
    apply decodeMsd_inv in Hinv
      as (_ & l' & o' & -> & [([= <-] & Hl' & Hnav)|(? & _)]); [|done].
    rewrite Hl in Hl'. injection Hl' as <-.
    exists h'. split_and!; [done| |].
    + apply (Nav_decoded_frame _ _ _ _ _ Hnav).
      apply not_elem_of_keys; by repeat constructor.
    + apply (Nav_decoded_model _ _ _ _ _ Hnav).
Qed.

Lemma decodeMsd_record_witness :
  (∃ l h',
     decodeMsd hciEirDataType nav_buffer VUndefined ∅ = (Normal (VObject l), h') ∧
     (∅ : heap) !! l = None ∧
     path h' (VObject l) ["companyIdentifier"] = Some (VNumber (number_of_Z
       (uint16_le (index_int32 nav_buffer 0) (index_int32 nav_buffer 1)))) ∧
     path h' (VObject l) ["type"] = Some (VNumber (number_of_Z 0xFF)) ∧
     path h' (VObject l) ["typeLabel"]
       = Some (VString "ManufacturerSpecificData")) ∧
  (∃ h',
     decodeMsd hciEirDataType nav_buffer (VObject 1%positive)
       {[1%positive := {["companyIdentifier" := VNumber 7]}]}
       = (Normal (VObject 1%positive), h') ∧
     path h' (VObject 1%positive) ["companyIdentifier"] = Some (VNumber 7) ∧
     path h' (VObject 1%positive) ["model"]
       = Some (VNumber (number_of_Z DeviceModel.Nav))).
Proof.
  split.
  - apply (proj1 (decodeMsd_record hciEirDataType nav_buffer ∅
                    ltac:(simpl; lia) eq_refl) VUndefined).
    reflexivity.
  - exact (proj2 (decodeMsd_record hciEirDataType nav_buffer
                    {[1%positive := {["companyIdentifier" := VNumber 7]}]}
                    ltac:(simpl; lia) eq_refl)
             1%positive {["companyIdentifier" := VNumber 7]} eq_refl).
Defined.

Lemma field_decoder_keeps buffer step l o (h : heap) u h' k :
  step ∈ field_decoders buffer →
  k ∉ ["position"; "magneticField"; "rtto"; "alarms"] →
  h !! l = Some o → step (VObject l) h = (Normal u, h') →
  path h' (VObject l) [k] = o !! k.
Proof.
  intros Hstep Hk Hl Hrun. rewrite !not_elem_of_cons in Hk.
  destruct Hk as (? & ? & ? & ? & _). rewrite path_single.
  unfold field_decoders in Hstep. rewrite !elem_of_cons in Hstep.
  destruct Hstep as [->|[->|[->|[->|Hnil]]]].
  - apply (decodeAccelerometer_inv _ _ _ _ _ _ Hl) in Hrun
      as (x & y & z & _ & _ & _ & ->).
    rewrite lookup_insert_eq. simpl. by rewrite lookup_insert_ne.
  - apply (decodeMagneticField_inv _ _ _ _ _ _ Hl) in Hrun
      as (x & y & z & _ & _ & _ & ->).
    rewrite lookup_insert_eq. simpl. by rewrite lookup_insert_ne.
  - rewrite (decodeRtto_run _ _ _ _ _ Hl) in Hrun. simplify_eq.
    rewrite lookup_insert_eq. simpl. by rewrite lookup_insert_ne.
  - rewrite (decodeAlarms_run_absent _ _ _ _ _ Hl) in Hrun. simplify_eq.
    rewrite lookup_insert_eq. simpl. by rewrite lookup_insert_ne.
  - by apply elem_of_nil in Hnil.
Qed.

(** ** The decoder installed in the host's table *)

(** C4, the claim as it is written, fails: on the two-byte buffer
    [[0x4C, 0x89]] the installed decoder finds the Nav decoder, which
    throws a [RangeError] at its first read. *)
Lemma installed_decoder_short_buffer_counterexample :
  ∃ hook, installed_decoder hciEirDataType ∅ = Some hook ∧
    (hook [x4c; x89] (VObject 1%positive) one_object).1 = Throw RangeError.
Proof.
  eexists. split; [apply lookup_insert_eq|]. vm_compute. reflexivity.
Qed.

(** C4, amended.  After registration the slot holds a decoder that, for
    every buffer, record and store: runs the decoder [msdDecoders] has for
    the byte at index 1 when there is one, and then throws no [Error] and,
    on a buffer of at least 14 bytes and a record of the store, returns;
    otherwise runs the decoder the slot held before, when it held one, and
    ends as that one ends; otherwise returns at once with the store as it
    was.  The other slots of the table are left alone. *)
Theorem installed_decoder_dispatch E (eirDataTypeDecoders : gmap string decoder) :
  let slot := ToString (Some (ManufacturerSpecificData E)) in
  (∀ k, k ≠ slot →
        registerManufacturerSpecificDataDecoder E eirDataTypeDecoders !! k
        = eirDataTypeDecoders !! k) ∧
  ∃ hook, installed_decoder E eirDataTypeDecoders = Some hook ∧
    ∀ buffer msd (h : heap),
      (∀ deviceModelDecoder,
         msdDecoders !! ToString (index buffer 1) = Some deviceModelDecoder →
         hook buffer msd h
           = bind (deviceModelDecoder buffer msd) (λ _, ret VUndefined) h ∧
         (∀ message, (hook buffer msd h).1 ≠ Throw (Error message)) ∧
         (14 ≤ length buffer → (∃ l, msd = VObject l ∧ is_Some (h !! l)) →
          ∃ h', hook buffer msd h = (Normal VUndefined, h'))) ∧
      (msdDecoders !! ToString (index buffer 1) = None →
       (∀ originalDecoder,
          eirDataTypeDecoders !! slot = Some originalDecoder →
          hook buffer msd h
            = bind (originalDecoder buffer msd) (λ _, ret VUndefined) h) ∧
       (eirDataTypeDecoders !! slot = None →
        hook buffer msd h = (Normal VUndefined, h))).
Proof.
  intros slot. split.
  - intros k Hk. unfold registerManufacturerSpecificDataDecoder.
    by rewrite lookup_insert_ne.
  - eexists. split; [apply lookup_insert_eq|]. intros buffer msd h. split.
    + intros d Hd. cbv zeta. rewrite Hd. split; [done|].
      apply msdDecoders_lookup in Hd as [Hi ->]. split.
      * apply no_Error_bind; [apply Nav_decoder_no_Error|].
        intros _. apply no_Error_ret.
      * intros Hlen (l & -> & [o Hl]).
        destruct (Nav_decoder_total buffer l o h Hlen Hl) as [h' Hnav].
        exists h'. by rewrite (bind_run _ _ _ _ _ Hnav).
    + intros Hnone. cbv zeta. rewrite Hnone. fold slot. split.
      * by intros od ->.
      * by intros ->.
Qed.

Lemma installed_decoder_dispatch_witness :
  ∃ hook, installed_decoder hciEirDataType ∅ = Some hook ∧
    hook [x4c; xff] (VObject 1%positive) one_object = (Normal VUndefined, one_object) ∧
    ∃ h', hook nav_buffer (VObject 1%positive) one_object = (Normal VUndefined, h').
Proof.
  destruct (installed_decoder_dispatch hciEirDataType ∅)
    as (_ & hook & Hslot & Hhook).
  exists hook. split; [exact Hslot|]. split.
  - apply (Hhook [x4c; xff] (VObject 1%positive) one_object); reflexivity.
  - apply (proj1 (Hhook nav_buffer (VObject 1%positive) one_object) Nav_decoder).
    + reflexivity.
    + simpl. lia.
    + exists 1%positive. split; [reflexivity|]. exists ∅. reflexivity.
Defined.

(** * Further properties of the decoders *)

(** ** Alarm flags and missing bytes *)

Lemma land_pow2 a i :
  (0 ≤ i)%Z → nonzero (Z.land a (2 ^ i)) = Z.testbit a i.
Proof.
  intros Hi. unfold nonzero. destruct (Z.testbit a i) eqn:Hb.
  - destruct (Z.eqb_spec (Z.land a (2 ^ i)) 0) as [Heq|]; [|done].
    assert (Z.testbit (Z.land a (2 ^ i)) i = true) as Hbit.
    { by rewrite Z.land_spec, Hb, Z.pow2_bits_eqb, Z.eqb_refl. }
    rewrite Heq, Z.bits_0 in Hbit. discriminate.
  - replace (Z.land a (2 ^ i)) with 0%Z; [done|]. symmetry.
    apply Z.bits_inj'. intros m Hm.
    rewrite Z.land_spec, Z.bits_0, Z.pow2_bits_eqb by done.
    destruct (Z.eqb_spec i m) as [->|]; [by rewrite Hb|apply andb_false_r].
Qed.

Lemma battery_bits_cases buffer batteryI :
  battery_bits buffer batteryI = 0x8000%Z ∨ battery_bits buffer batteryI = 0%Z.
Proof.
  destruct (index buffer batteryI) as [b|] eqn:Hb.
  - rewrite (battery_bits_present _ _ _ Hb).
    destruct (nonzero (Z.land b 4)); auto.
  - right. unfold battery_bits, index_int32. rewrite Hb.
    by destruct (batteryI =? -1)%Z.
Qed.

Lemma battery_bits_low buffer batteryI i :
  (0 ≤ i < 15)%Z → Z.testbit (battery_bits buffer batteryI) i = false.
Proof.
  intros Hi. destruct (battery_bits_cases buffer batteryI) as [->| ->].
  - change 32768%Z with (2 ^ 15)%Z. rewrite Z.pow2_bits_eqb by lia.
    apply Z.eqb_neq. lia.
  - apply Z.bits_0.
Qed.

Lemma extended_flags_lookup alarms (i : nat) name :
  flag_names !! i = Some name →
  extended_flags alarms !! name
    = Some (VBoolean (nonzero (Z.land alarms (2 ^ Z.of_nat i)))).
Proof.
  intros Hname. unfold extended_flags.
  do 10 (destruct i as [|i]; [injection Hname as <-; by lookups|]).
  discriminate.
Qed.

Lemma dom_extended_flags alarms :
  dom (extended_flags alarms) = list_to_set flag_names.
Proof.
  unfold extended_flags. rewrite !dom_insert_L, dom_empty_L. simpl.
  reflexivity.
Qed.

Lemma readUInt16LE_out_of_range buffer offset :
  (offset < 0 ∨ Z.of_nat (length buffer) < offset + 2)%Z →
  readUInt16LE buffer offset = Throw RangeError.
Proof.
  intros [Hneg|Hlen]; unfold readUInt16LE.
  - unfold index at 1. by destruct (Z.ltb_spec offset 0); [|lia].
  - rewrite (index_short buffer (offset + 1)) by lia.
    by destruct (index buffer offset).
Qed.

(** X1.  With an extended offset whose word can be read, [decodeAlarms]
    stores an alarms object with exactly eleven keys, [lowBattery] and the
    ten flags, and the flag at position [i] of [flag_names] is bit [i] of
    the extended word, whatever the battery offset and its byte are. *)
Theorem decodeAlarms_extended_flags buffer batteryI extendedI extended l o
    (h : heap) :
  extendedI ≠ (-1)%Z → readUInt16LE buffer extendedI = Normal extended →
  h !! l = Some o →
  ∃ h' a,
    decodeAlarms buffer batteryI extendedI (VObject l) h = (Normal tt, h') ∧
    path h' (VObject l) ["alarms"] = Some a ∧
    own_keys h' a = Some (list_to_set ("lowBattery" :: flag_names)) ∧
    ∀ (i : nat) name,
      flag_names !! i = Some name →
      path h' a [name] = Some (VBoolean (Z.testbit extended (Z.of_nat i))).
Proof.
  intros Hne Hext Hl.
  pose proof (decodeAlarms_run_extended buffer batteryI extendedI extended
                l o h Hne Hext Hl) as Hrun.
  cbv zeta in Hrun. rewrite Hrun. clear Hrun.
  assert (fresh (dom h) ≠ l) as Hla by by eapply fresh_ne.
  set (h1 := <[l := _]> (<[fresh (dom h) := _]> h)).
  assert (h1 !! l = Some (<["alarms" := VObject (fresh (dom h))]> o)) as Hl1
    by apply lookup_insert_eq.
  assert (fresh (dom h1) ≠ l) as Hls by by eapply fresh_ne.
  eexists _, (VObject (fresh (dom h))). split_and!; [done| | |].
  - erewrite path_cons; [done|by rewrite !lookup_insert_ne by done|by lookups].
  - cbn [own_keys]. rewrite lookup_insert_eq. cbn [fmap option_fmap option_map].
    by rewrite dom_union_L, dom_extended_flags, dom_lowBattery_object,
      union_comm_L.
  - intros i name Hname. rewrite path_single, lookup_insert_eq. simpl.
    erewrite lookup_union_Some_l by by apply extended_flags_lookup.
    do 2 f_equal. apply lookup_lt_Some in Hname. simpl in Hname.
    rewrite land_pow2 by lia. unfold alarms_mask.
    rewrite Z.lor_spec, battery_bits_low by lia. apply orb_false_r.
Qed.

Lemma decodeAlarms_extended_flags_witness :
  ∃ h' a,
    decodeAlarms [x00; x89; x21; x02] 0 2 (VObject 1%positive) one_object
      = (Normal tt, h') ∧
    path h' (VObject 1%positive) ["alarms"] = Some a ∧
    own_keys h' a = Some (list_to_set ("lowBattery" :: flag_names)) ∧
    ∀ (i : nat) name,
      flag_names !! i = Some name →
      path h' a [name] = Some (VBoolean (Z.testbit 545 (Z.of_nat i))).
Proof.
  apply (decodeAlarms_extended_flags [x00; x89; x21; x02] 0 2 545 1%positive ∅
           one_object).
  - discriminate.
  - reflexivity.
  - reflexivity.
Defined.

(** X2.  With an extended offset other than -1 that does not leave room
    for two bytes in the buffer, [decodeAlarms] throws a [RangeError]
    before it writes anything: the store is as it was, for any record. *)
Theorem decodeAlarms_extended_out_of_range buffer batteryI extendedI msd
    (h : heap) :
  extendedI ≠ (-1)%Z →
  (extendedI < 0 ∨ Z.of_nat (length buffer) < extendedI + 2)%Z →
  decodeAlarms buffer batteryI extendedI msd h = (Throw RangeError, h).
Proof.
  intros Hne Hout. unfold decodeAlarms, extended_bits.
  apply Z.eqb_neq in Hne. rewrite Hne.
  by rewrite (readUInt16LE_out_of_range _ _ Hout).
Qed.

Lemma decodeAlarms_extended_out_of_range_witness :
  decodeAlarms [x04; x89; xff] 0 2 (VObject 1%positive) one_object
    = (Throw RangeError, one_object).
Proof.
  apply (decodeAlarms_extended_out_of_range [x04; x89; xff] 0 2
           (VObject 1%positive) one_object).
  - discriminate.
  - right. simpl. lia.
Defined.

(** X3.  A battery offset that is -1, or that is not an index of the
    buffer, is no error: the battery byte counts as 0.  Without an
    extended offset [lowBattery] is then false, and with one it is bit
    0x8000 of the extended word. *)
Theorem decodeAlarms_battery_missing buffer batteryI l o (h : heap) :
  index buffer batteryI = None → h !! l = Some o →
  (∃ h', decodeAlarms buffer batteryI (-1) (VObject l) h = (Normal tt, h') ∧
         path h' (VObject l) ["alarms"; "lowBattery"] = Some (VBoolean false)) ∧
  (∀ extendedI extended,
     extendedI ≠ (-1)%Z → readUInt16LE buffer extendedI = Normal extended →
     ∃ h', decodeAlarms buffer batteryI extendedI (VObject l) h = (Normal tt, h') ∧
           path h' (VObject l) ["alarms"; "lowBattery"]
             = Some (VBoolean (Z.testbit extended 15))).
Proof.
  intros Hb Hl.
  assert (battery_bits buffer batteryI = 0%Z) as Hbits.
  { unfold battery_bits, index_int32. rewrite Hb.
    by destruct (batteryI =? -1)%Z. }
  assert (fresh (dom h) ≠ l) as Hla by by eapply fresh_ne.
  split.
  - rewrite (decodeAlarms_run_absent _ _ _ _ _ Hl). eexists. split; [done|].
    do 2 path_step. by rewrite Hbits.
  - intros extendedI extended Hne Hext.
    pose proof (decodeAlarms_run_extended buffer batteryI extendedI extended
                  l o h Hne Hext Hl) as Hrun.
    cbv zeta in Hrun. rewrite Hrun. clear Hrun. eexists. split; [done|].
    set (h1 := <[l := _]> (<[fresh (dom h) := _]> h)).
    assert (h1 !! l = Some (<["alarms" := VObject (fresh (dom h))]> o)) as Hl1
      by apply lookup_insert_eq.
    assert (fresh (dom h1) ≠ l) as Hls by by eapply fresh_ne.
    erewrite path_cons; [|by rewrite !lookup_insert_ne by done|by lookups].
    erewrite path_cons; [reflexivity|by apply lookup_insert_eq|].
    rewrite lookup_union_r by apply extended_flags_lowBattery.
    unfold lowBattery_object. rewrite lookup_insert_eq, Hbits.
    unfold alarms_mask. rewrite Z.lor_0_r.
    change 32768%Z with (2 ^ 15)%Z. by rewrite land_pow2.
Qed.

Lemma decodeAlarms_battery_missing_witness :
  (∃ h', decodeAlarms [xff; x89; x00; x80] 7 (-1) (VObject 1%positive) one_object
           = (Normal tt, h') ∧
         path h' (VObject 1%positive) ["alarms"; "lowBattery"]
           = Some (VBoolean false)) ∧
  (∀ extendedI extended,
     extendedI ≠ (-1)%Z →
     readUInt16LE [xff; x89; x00; x80] extendedI = Normal extended →
     ∃ h', decodeAlarms [xff; x89; x00; x80] 7 extendedI (VObject 1%positive)
             one_object = (Normal tt, h') ∧
           path h' (VObject 1%positive) ["alarms"; "lowBattery"]
             = Some (VBoolean (Z.testbit extended 15))).
Proof.
  apply (decodeAlarms_battery_missing [xff; x89; x00; x80] 7 1%positive ∅
           one_object); reflexivity.
Defined.

(** X4.  On a record of the store [decodeRtto] never throws, whatever the
    offset: [rtto] is true iff the offset is an index of the buffer and bit
    1 (mask 0x02) of the byte there is set.  It assigns [rtto] and nothing
    else, in the record or in the store. *)
Theorem decodeRtto_bit buffer i l o (h : heap) :
  h !! l = Some o →
  ∃ h',
    decodeRtto buffer i (VObject l) h = (Normal tt, h') ∧
    path h' (VObject l) ["rtto"]
      = Some (VBoolean (match index buffer i with
                        | Some b => Z.testbit b 1
                        | None => false
                        end)) ∧
    (∀ k, k ≠ "rtto" → path h' (VObject l) [k] = o !! k) ∧
    (∀ l', l' ≠ l → h' !! l' = h !! l').
Proof.
  intros Hl. rewrite (decodeRtto_run _ _ _ _ _ Hl). eexists. split; [done|].
  split_and!.
  - rewrite path_single, lookup_insert_eq. simpl. rewrite lookup_insert_eq.
    do 2 f_equal. unfold index_int32.
    destruct (index buffer i) as [b|]; simpl; [|done].
    change 2%Z with (2 ^ 1)%Z. by rewrite land_pow2.
  - intros k Hk. rewrite path_single, lookup_insert_eq. simpl.
    by rewrite lookup_insert_ne.
  - intros l' Hl'. by rewrite lookup_insert_ne.
Qed.

Lemma decodeRtto_bit_witness :
  ∃ h',
    decodeRtto [x02] 5 (VObject 1%positive) one_object = (Normal tt, h') ∧
    path h' (VObject 1%positive) ["rtto"] = Some (VBoolean false) ∧
    (∀ k, k ≠ "rtto" → path h' (VObject 1%positive) [k] = (∅ : object) !! k) ∧
    (∀ l', l' ≠ 1%positive → h' !! l' = one_object !! l').
Proof.
  apply (decodeRtto_bit [x02] 5 1%positive ∅ one_object). reflexivity.
Defined.

(** ** What a decode leaves alone *)

Lemma frame_lift {A} msd (c : completion A) : frame msd (lift c).
Proof. by intros h l' o' _ Hl'. Qed.

Lemma frame_alloc msd o : frame msd (alloc o).
Proof. intros h l' o' _ Hl'. by apply lookup_after_alloc. Qed.

Lemma frame_set_prop msd k v : frame msd (set_prop msd k v).
Proof.
  intros h l' o' Hne Hl'. unfold set_prop.
  destruct msd as [| | | | |l]; try done.
  destruct (h !! l) as [o|]; [|done]. simpl.
  rewrite lookup_insert_ne; [done|congruence].
Qed.

Lemma frame_bind {A B} msd (m : M A) (k : A → M B) :
  frame msd m → (∀ a, frame msd (k a)) → frame msd (bind m k).
Proof.
  intros Hm Hk h l' o' Hne Hl'. specialize (Hm h l' o' Hne Hl'). unfold bind.
  destruct (m h) as [[a|e] h1]; [by apply Hk|done].
Qed.

Ltac frame_steps :=
  repeat first
    [ apply frame_bind; [|intros ?]
    | apply frame_lift | apply frame_alloc | apply frame_set_prop ].

Lemma frame_decodeAccelerometer buffer msd :
  frame msd (decodeAccelerometer buffer msd).
Proof. unfold decodeAccelerometer. frame_steps. Qed.

Lemma frame_decodeMagneticField buffer msd :
  frame msd (decodeMagneticField buffer msd).
Proof. unfold decodeMagneticField. frame_steps. Qed.

Lemma frame_decodeRtto buffer i msd : frame msd (decodeRtto buffer i msd).
Proof. unfold decodeRtto. frame_steps. Qed.

Lemma frame_decodeAlarms_absent buffer batteryI msd :
  frame msd (decodeAlarms buffer batteryI (-1) msd).
Proof.
  unfold decodeAlarms, extended_bits. change (-1 =? -1)%Z with true.
  cbv iota. unfold ret. simpl negb. cbv iota. frame_steps.
Qed.

Lemma frame_Nav_decoder buffer msd : frame msd (Nav_decoder buffer msd).
Proof.
  unfold Nav_decoder, ret.
  pose proof frame_decodeAccelerometer. pose proof frame_decodeMagneticField.
  pose proof frame_decodeRtto. pose proof frame_decodeAlarms_absent.
  frame_steps; done.
Qed.

(** X5.  However a decode ends, by a return or by a throw, it leaves every
    object of the store other than the record as it was: this holds for
    the Nav decoder and for [decodeMsd].  When [decodeMsd] is called without
    a record the store only grows. *)
Theorem decode_frame E buffer msd (h : heap) :
  (∀ l' o', msd ≠ VObject l' → h !! l' = Some o' →
     (Nav_decoder buffer msd h).2 !! l' = Some o' ∧
     (decodeMsd E buffer msd h).2 !! l' = Some o') ∧
  (truthy msd = false → h ⊆ (decodeMsd E buffer msd h).2).
Proof.
  assert (∀ l' o', msd ≠ VObject l' → h !! l' = Some o' →
            (decodeMsd E buffer msd h).2 !! l' = Some o') as Hmsd.
  { intros l' o' Hne Hl'. unfold decodeMsd.
    destruct (msdDecoders !! ToString (index buffer 1)) as [d|] eqn:Hd; [|done].
    apply msdDecoders_lookup in Hd as [_ ->].
    destruct (truthy msd) eqn:Ht; simpl negb; cbv iota.
    - apply (frame_bind msd (Nav_decoder buffer msd) (λ _, ret msd));
        [apply frame_Nav_decoder|intros _; apply frame_lift|done..].
    - unfold bind at 1. unfold bind at 1. unfold lift at 1.
      destruct (readUInt16LE buffer 0) as [ci|e]; [|done].
      rewrite alloc_run.
      apply (frame_bind (VObject (fresh (dom h)))
               (Nav_decoder buffer (VObject (fresh (dom h))))
               (λ _, ret (VObject (fresh (dom h))))).
      + apply frame_Nav_decoder.
      + intros _. apply frame_lift.
      + intros [= Heq]. rewrite <- Heq, fresh_lookup in Hl'. discriminate.
      + by apply lookup_after_alloc. }
  split.
  - intros l' o' Hne Hl'. split; [by apply frame_Nav_decoder|by apply Hmsd].
  - intros Ht. apply map_subseteq_spec. intros l' o' Hl'. apply Hmsd; [|done].
    intros ->. discriminate.
Qed.

Lemma decode_frame_witness :
  (Nav_decoder [x4c; x89; x01] (VObject 1%positive)
     (<[2%positive := {["kept" := VBoolean true]}]> one_object)).2 !! 2%positive
    = Some {["kept" := VBoolean true]} ∧
  (∅ : heap) ⊆ (decodeMsd hciEirDataType nav_buffer VUndefined ∅).2.
Proof.
  split.
  - apply (decode_frame hciEirDataType [x4c; x89; x01] (VObject 1%positive)
             (<[2%positive := {["kept" := VBoolean true]}]> one_object)).
    + discriminate.
    + reflexivity.
  - apply (decode_frame hciEirDataType nav_buffer VUndefined ∅). reflexivity.
Defined.

(** ** When a decode returns, and how it fails *)

Lemma readInt16LE_Throw buffer offset e :
  readInt16LE buffer offset = Throw e → e = RangeError.
Proof.
  unfold readInt16LE.
  destruct (index buffer offset); [destruct (index buffer (offset + 1))|];
    by intros [= <-].
Qed.

Lemma decodeAccelerometer_short buffer msd (h : heap) :
  length buffer < 8 →
  decodeAccelerometer buffer msd h = (Throw RangeError, h).
Proof.
  intros Hlen. unfold decodeAccelerometer.
  destruct (readInt16LE buffer 2) as [x|e] eqn:Hx;
    [|by apply readInt16LE_Throw in Hx as ->].
  destruct (readInt16LE buffer 4) as [y|e] eqn:Hy;
    [|by apply readInt16LE_Throw in Hy as ->].
  by rewrite (readInt16LE_short buffer 6) by lia.
Qed.

Lemma decodeMagneticField_short buffer msd (h : heap) :
  length buffer < 14 →
  decodeMagneticField buffer msd h = (Throw RangeError, h).
Proof.
  intros Hlen. unfold decodeMagneticField.
  destruct (readInt16LE buffer 8) as [x|e] eqn:Hx;
    [|by apply readInt16LE_Throw in Hx as ->].
  destruct (readInt16LE buffer 10) as [y|e] eqn:Hy;
    [|by apply readInt16LE_Throw in Hy as ->].
  by rewrite (readInt16LE_short buffer 12) by lia.
Qed.

(** The pipeline on a buffer too short for its six reads: the identity is
    written, then a read throws. *)
Lemma Nav_decoder_short14 buffer l o (h : heap) :
  length buffer < 14 → h !! l = Some o →
  ∃ h' o',
    Nav_decoder buffer (VObject l) h = (Throw RangeError, h') ∧
    h' !! l = Some o' ∧
    o' !! "model" = Some (VNumber (number_of_Z DeviceModel.Nav)) ∧
    o' !! "modelLabel" = Some (VString "iNode Nav") ∧
    (length buffer < 8 → o' !! "position" = o !! "position") ∧
    (∀ k, k ∉ ["model"; "modelLabel"; "position"] → o' !! k = o !! k).
Proof.
  intros Hlen Hl. unfold Nav_decoder.
  rewrite (bind_set_prop _ _ _ _ _ _ Hl).
  rewrite (bind_set_prop l (<["model" := VNumber (number_of_Z DeviceModel.Nav)]> o))
    by apply lookup_insert_eq.
  rewrite insert_insert_eq.
  set (o2 := <["modelLabel" := _]> _). set (h2 := <[l := o2]> h).
  assert (h2 !! l = Some o2) as Hl2 by apply lookup_insert_eq.
  destruct (decide (length buffer < 8)) as [Hlt|Hge].
  - rewrite (bind_Throw _ _ _ _ _ (decodeAccelerometer_short _ _ _ Hlt)).
    exists h2, o2. unfold o2. split_and!; [done..|by lookups|by lookups| |].
    + intros _. by lookups.
    + intros k Hk. rewrite !not_elem_of_cons in Hk.
      destruct Hk as (? & ? & ? & _). by lookups.
  - destruct (readInt16LE_long buffer 2) as [x Hx]; [lia..|].
    destruct (readInt16LE_long buffer 4) as [y Hy]; [lia..|].
    destruct (readInt16LE_long buffer 6) as [z Hz]; [lia..|].
    rewrite (bind_run _ _ _ _ _
               (decodeAccelerometer_run _ _ _ _ _ _ _ Hx Hy Hz Hl2)).
    rewrite (bind_Throw _ _ _ _ _ (decodeMagneticField_short _ _ _ Hlen)).
    eexists _, _. split; [done|]. split; [apply lookup_insert_eq|].
    unfold o2. split_and!; [by lookups|by lookups|lia|].
    intros k Hk. rewrite !not_elem_of_cons in Hk.
    destruct Hk as (? & ? & ? & _). by lookups.
Qed.

(** X6.  [decodeMsd] returns exactly when the byte at index 1 is the Nav
    model, the buffer has at least 14 bytes, and the record argument is
    falsy or an object of the store. *)
Theorem decodeMsd_returns_iff E buffer msd (h : heap) :
  (∃ r h', decodeMsd E buffer msd h = (Normal r, h')) ↔
  index buffer 1 = Some DeviceModel.Nav ∧ 14 ≤ length buffer ∧ record_arg h msd.
Proof.
  split.
  - intros (r & h' & Hrun).
    apply decodeMsd_inv in Hrun as (Hi & l & o & -> & Hcase).
    split; [done|].
    assert (∃ o0 h0, Nav_decoded buffer l o0 h0 h') as (o0 & h0 & Hnav)
      by (destruct Hcase as [(_ & _ & ?)|(_ & _ & _ & ?)]; eauto).
    split.
    + destruct Hnav as (? & ? & ? & ? & ? & ? & ? & ? & w & _ & _ & _ & _ & _
        & Hw & _).
      apply readInt16LE_Normal in Hw as (lo & hi & _ & Hhi & _).
      apply index_Some in Hhi as [? _]. lia.
    + destruct Hcase as [(-> & Hl & _)|(Ht & _)]; [right|by left].
      exists l. by rewrite Hl.
  - intros (Hi & Hlen & Hmsd). by apply decodeMsd_total.
Qed.

(** X7.  With the Nav model byte and fewer than 14 bytes [decodeMsd] throws
    a [RangeError].  A record the caller passed is by then half written:
    [model] and [modelLabel] are set, [magneticField], [rtto] and [alarms]
    are as they were, and so is [position] if the buffer has fewer than 8
    bytes. *)
Theorem decodeMsd_short_Nav_buffer E buffer l o (h : heap) :
  index buffer 1 = Some DeviceModel.Nav → length buffer < 14 →
  h !! l = Some o →
  (∀ msd, truthy msd = false →
          (decodeMsd E buffer msd h).1 = Throw RangeError) ∧
  ∃ h',
    decodeMsd E buffer (VObject l) h = (Throw RangeError, h') ∧
    path h' (VObject l) ["model"] = Some (VNumber 137) ∧
    path h' (VObject l) ["modelLabel"] = Some (VString "iNode Nav") ∧
    path h' (VObject l) ["magneticField"] = o !! "magneticField" ∧
    path h' (VObject l) ["rtto"] = o !! "rtto" ∧
    path h' (VObject l) ["alarms"] = o !! "alarms" ∧
    (length buffer < 8 → path h' (VObject l) ["position"] = o !! "position").
Proof.
  intros Hi Hlen Hl. split.
  - intros msd Ht. rewrite decodeMsd_created by done.
    destruct (readUInt16LE_long buffer 0) as [ci Hci].
    { lia. } { apply index_Some in Hi as [? _]. lia. }
    assert (bind (lift (readUInt16LE buffer 0)) (λ ci, alloc (new_record E ci)) h
            = (Normal (VObject (fresh (dom h))),
               <[fresh (dom h) := new_record E ci]> h)) as Hnew
      by by rewrite Hci.
    rewrite (bind_run _ _ _ _ _ Hnew).
    destruct (Nav_decoder_short14 buffer (fresh (dom h)) (new_record E ci)
                (<[fresh (dom h) := new_record E ci]> h) Hlen)
      as (h' & o' & Hnav & _); [apply lookup_insert_eq|].
    by rewrite (bind_Throw _ _ _ _ _ Hnav).
  - rewrite decodeMsd_supplied by done.
    destruct (Nav_decoder_short14 buffer l o h Hlen Hl)
      as (h' & o' & Hnav & Hl' & Hmodel & Hlabel & Hpos & Hframe).
    rewrite (bind_Throw _ _ _ _ _ Hnav). exists h'. split; [done|].
    rewrite !path_single, Hl'. simpl. rewrite Hmodel, Hlabel.
    rewrite !Hframe by (apply not_elem_of_keys; by repeat constructor).
    by split_and!.
Qed.

Lemma decodeMsd_short_Nav_buffer_witness :
  (∀ msd, truthy msd = false →
          (decodeMsd hciEirDataType [x4c; x89; x01; x00] msd one_object).1
            = Throw RangeError) ∧
  ∃ h',
    decodeMsd hciEirDataType [x4c; x89; x01; x00] (VObject 1%positive) one_object
      = (Throw RangeError, h') ∧
    path h' (VObject 1%positive) ["model"] = Some (VNumber 137) ∧
    path h' (VObject 1%positive) ["modelLabel"] = Some (VString "iNode Nav") ∧
    path h' (VObject 1%positive) ["magneticField"] = (∅ : object) !! "magneticField" ∧
    path h' (VObject 1%positive) ["rtto"] = (∅ : object) !! "rtto" ∧
    path h' (VObject 1%positive) ["alarms"] = (∅ : object) !! "alarms" ∧
    (length [x4c; x89; x01; x00] < 8 →
     path h' (VObject 1%positive) ["position"] = (∅ : object) !! "position").
Proof.
  apply (decodeMsd_short_Nav_buffer hciEirDataType [x4c; x89; x01; x00]
           1%positive ∅ one_object).
  - reflexivity.
  - simpl. lia.
  - reflexivity.
Defined.

(** ** The installed decoder and the direct entry point *)

Lemma installed_decoder_run E (eirDataTypeDecoders : gmap string decoder) :
  ∃ hook, installed_decoder E eirDataTypeDecoders = Some hook ∧
    ∀ buffer msd (h : heap),
      hook buffer msd h =
      match msdDecoders !! ToString (index buffer 1) with
      | Some d => bind (d buffer msd) (λ _, ret VUndefined) h
      | None =>
          match eirDataTypeDecoders !! ToString (Some (ManufacturerSpecificData E)) with
          | Some originalDecoder =>
              bind (originalDecoder buffer msd) (λ _, ret VUndefined) h
          | None => (Normal VUndefined, h)
          end
      end.
Proof.
  eexists. split; [apply lookup_insert_eq|]. intros buffer msd h. cbv beta zeta.
  destruct (msdDecoders !! ToString (index buffer 1)); [done|].
  by destruct (eirDataTypeDecoders !! _).
Qed.

Lemma Nav_decoder_non_object buffer msd (h : heap) :
  (∀ l, msd ≠ VObject l) → Nav_decoder buffer msd h = (Throw TypeError, h).
Proof. intros Hmsd. destruct msd as [| | | | |l]; try done. by destruct (Hmsd l). Qed.

(** X8.  With the Nav model byte and a record argument that is not an
    object, nothing is written and a [TypeError] is thrown: by the
    installed decoder for every such argument, [undefined] included, since
    it creates no record; by [decodeMsd] when the argument is truthy (a
    falsy one makes it create the record). *)
Theorem decode_non_object_record E (eirDataTypeDecoders : gmap string decoder)
    buffer msd (h : heap) :
  index buffer 1 = Some DeviceModel.Nav → (∀ l, msd ≠ VObject l) →
  (truthy msd = true → decodeMsd E buffer msd h = (Throw TypeError, h)) ∧
  ∃ hook, installed_decoder E eirDataTypeDecoders = Some hook ∧
          hook buffer msd h = (Throw TypeError, h).
Proof.
  intros Hi Hmsd. split.
  - intros Ht. unfold decodeMsd. rewrite Hi, msdDecoders_known, Ht.
    simpl negb. cbv iota. unfold ret at 1. rewrite bind_lift_Normal.
    by rewrite (bind_Throw _ _ _ _ _ (Nav_decoder_non_object _ _ _ Hmsd)).
  - destruct (installed_decoder_run E eirDataTypeDecoders) as (hook & Hslot & Hrun).
    exists hook. split; [done|]. rewrite Hrun, Hi, msdDecoders_known.
    by rewrite (bind_Throw _ _ _ _ _ (Nav_decoder_non_object _ _ _ Hmsd)).
Qed.

Lemma decode_non_object_record_witness :
  (truthy (VString "msd") = true →
   decodeMsd hciEirDataType nav_buffer (VString "msd") one_object
     = (Throw TypeError, one_object)) ∧
  ∃ hook, installed_decoder hciEirDataType ∅ = Some hook ∧
          hook nav_buffer (VString "msd") one_object = (Throw TypeError, one_object).
Proof.
  apply (decode_non_object_record hciEirDataType ∅ nav_buffer (VString "msd")
           one_object).
  - reflexivity.
  - discriminate.
Defined.

(** X9.  On a buffer with the Nav model byte and an object as record, the
    installed decoder does to the store exactly what [decodeMsd] does, and
    ends the same way: it returns [undefined] where [decodeMsd] returns the
    record and throws what [decodeMsd] throws. *)
Theorem installed_decoder_as_decodeMsd E
    (eirDataTypeDecoders : gmap string decoder) buffer l (h : heap) :
  index buffer 1 = Some DeviceModel.Nav →
  ∃ hook, installed_decoder E eirDataTypeDecoders = Some hook ∧
    (hook buffer (VObject l) h).2 = (decodeMsd E buffer (VObject l) h).2 ∧
    (hook buffer (VObject l) h).1 =
      match (decodeMsd E buffer (VObject l) h).1 with
      | Normal _ => Normal VUndefined
      | Throw e => Throw e
      end.
Proof.
  intros Hi.
  destruct (installed_decoder_run E eirDataTypeDecoders) as (hook & Hslot & Hrun).
  exists hook. split; [done|].
  rewrite Hrun, Hi, msdDecoders_known, decodeMsd_supplied by done.
  unfold bind. by destruct (Nav_decoder buffer (VObject l) h) as [[a|e] h1].
Qed.

Lemma installed_decoder_as_decodeMsd_witness :
  ∃ hook, installed_decoder hciEirDataType ∅ = Some hook ∧
    (hook nav_buffer (VObject 1%positive) one_object).2
      = (decodeMsd hciEirDataType nav_buffer (VObject 1%positive) one_object).2 ∧
    (hook nav_buffer (VObject 1%positive) one_object).1 =
      match (decodeMsd hciEirDataType nav_buffer (VObject 1%positive) one_object).1
      with
      | Normal _ => Normal VUndefined
      | Throw e => Throw e
      end.
Proof.
  apply (installed_decoder_as_decodeMsd hciEirDataType ∅ nav_buffer 1%positive
           one_object).
  reflexivity.
Defined.

(** X10.  Registering twice changes nothing more: the decoder in the slot
    after the second registration behaves, on every buffer, record and
    store, as the one installed by the first, and every other slot of the
    table is as in the original table. *)
Theorem register_twice E (eirDataTypeDecoders : gmap string decoder) :
  let once := registerManufacturerSpecificDataDecoder E eirDataTypeDecoders in
  let twice := registerManufacturerSpecificDataDecoder E once in
  (∀ k, k ≠ ToString (Some (ManufacturerSpecificData E)) →
        twice !! k = eirDataTypeDecoders !! k) ∧
  ∃ hook1 hook2,
    installed_decoder E eirDataTypeDecoders = Some hook1 ∧
    installed_decoder E once = Some hook2 ∧
    ∀ buffer msd (h : heap), hook2 buffer msd h = hook1 buffer msd h.
Proof.
  intros once twice. split.
  - intros k Hk. unfold twice, once, registerManufacturerSpecificDataDecoder.
    by rewrite !lookup_insert_ne.
  - destruct (installed_decoder_run E eirDataTypeDecoders)
      as (hook1 & Hslot1 & Hrun1).
    destruct (installed_decoder_run E once) as (hook2 & Hslot2 & Hrun2).
    exists hook1, hook2. split_and!; [done..|]. intros buffer msd h.
    rewrite Hrun2, Hrun1.
    destruct (msdDecoders !! ToString (index buffer 1)) as [d|] eqn:Hd; [done|].
    change (once !! ToString (Some (ManufacturerSpecificData E)))
      with (installed_decoder E eirDataTypeDecoders).
    rewrite Hslot1. unfold bind at 1. rewrite Hrun1, Hd.
    destruct (eirDataTypeDecoders !! _) as [od|]; [|done].
    unfold bind. by destruct (od buffer msd h) as [[a|e] h1].
Qed.

Lemma register_twice_witness :
  ∃ hook1 hook2,
    installed_decoder hciEirDataType ∅ = Some hook1 ∧
    installed_decoder hciEirDataType
      (registerManufacturerSpecificDataDecoder hciEirDataType ∅) = Some hook2 ∧
    hook2 [x4c; xff] VUndefined one_object = hook1 [x4c; xff] VUndefined one_object.
Proof.
  destruct (register_twice hciEirDataType ∅)
    as (_ & hook1 & hook2 & H1 & H2 & Hsame).
  exists hook1, hook2. split; [exact H1|]. split; [exact H2|]. apply Hsame.
Defined.

Lemma decodeMsd_returns_iff_witness :
  ∃ r h', decodeMsd hciEirDataType nav_buffer VUndefined ∅ = (Normal r, h').
Proof.
  apply (proj2 (decodeMsd_returns_iff hciEirDataType nav_buffer VUndefined ∅)).
  split; [reflexivity|]. split; [simpl; lia|]. left. reflexivity.
Defined.

(** ** The contents of a decoded record *)

Lemma Nav_decoded_keys buffer l o (h h' : heap) :
  Nav_decoded buffer l o h h' →
  own_keys h' (VObject l) = Some (dom o ∪ list_to_set Nav_keys).
Proof.
  intros (lp & lm & la & x & y & z & u & v & w & _ & _ & _ & _ & _ & _ & _
    & _ & _ & _ & _ & _ & _ & _ & _ & ->).
  cbn [own_keys]. rewrite lookup_insert_eq. cbn [fmap option_fmap option_map].
  f_equal. unfold Nav_record. rewrite !dom_insert_L. simpl. set_solver.
Qed.

(** X11.  The record [decodeMsd] returns has, when it created it, exactly
    the nine keys type, typeLabel, companyIdentifier, model, modelLabel,
    position, magneticField, rtto and alarms.  A record the caller passed
    has the keys it had and those six of the pipeline, and each of its
    other properties has the value it had. *)
Theorem decodeMsd_keys E buffer msd (h : heap) r h' :
  decodeMsd E buffer msd h = (Normal r, h') →
  (truthy msd = false →
   own_keys h' r = Some (list_to_set
     (["type"; "typeLabel"; "companyIdentifier"] ++ Nav_keys))) ∧
  (∀ l o, msd = VObject l → h !! l = Some o →
     own_keys h' r = Some (dom o ∪ list_to_set Nav_keys) ∧
     ∀ k, k ∉ Nav_keys → path h' r [k] = o !! k).
Proof.
  intros Hrun.
  apply decodeMsd_inv in Hrun
    as (_ & l & o & -> & [(-> & Hl & Hnav)|(Ht & Hl & (ci & Hci & ->) & Hnav)]).
  - split; [done|]. intros l' o' [= <-] Hl'. rewrite Hl in Hl'.
    injection Hl' as <-. split; [by apply (Nav_decoded_keys buffer l o h)|].
    intros k Hk. by apply (Nav_decoded_frame _ _ _ _ _ Hnav).
  - split; [|intros l' o' ->; done]. intros _.
    rewrite (Nav_decoded_keys _ _ _ _ _ Hnav).
    unfold new_record. rewrite !dom_insert_L, dom_empty_L.
    apply (f_equal Some). simpl. set_solver.
Qed.

Lemma decodeMsd_keys_witness :
  own_keys (decodeMsd hciEirDataType nav_buffer VUndefined ∅).2 (VObject 1%positive)
    = Some (list_to_set (["type"; "typeLabel"; "companyIdentifier"] ++ Nav_keys)).
Proof.
  apply (decodeMsd_keys hciEirDataType nav_buffer VUndefined ∅ (VObject 1%positive)
           (decodeMsd hciEirDataType nav_buffer VUndefined ∅).2).
  - vm_compute. reflexivity.
  - reflexivity.
Defined.

Lemma byte_bits (c : byte) :
  nonzero (Z.land (byte_val c) 0x02) = Z.testbit (byte_val c) 1 ∧
  nonzero (Z.land (byte_val c) 0x04) = Z.testbit (byte_val c) 2.
Proof.
  change 2%Z with (2 ^ 1)%Z. change 4%Z with (2 ^ 2)%Z.
  by rewrite !land_pow2.
Qed.

(** X12.  In every record decoded from a buffer of at least 14 bytes with
    the Nav model byte, the two flags come from byte 0 alone: [rtto] is its
    bit 1 (mask 0x02) and [alarms.lowBattery] its bit 2 (mask 0x04). *)
Theorem Nav_flags_from_byte_0 E buffer msd (h : heap) :
  14 ≤ length buffer → index buffer 1 = Some DeviceModel.Nav →
  record_arg h msd →
  ∃ r h' b0,
    index buffer 0 = Some b0 ∧
    decodeMsd E buffer msd h = (Normal r, h') ∧
    path h' r ["rtto"] = Some (VBoolean (Z.testbit b0 1)) ∧
    path h' r ["alarms"; "lowBattery"] = Some (VBoolean (Z.testbit b0 2)).
Proof.
  intros Hlen Hi Hmsd.
  destruct (decodeMsd_total E buffer msd h Hlen Hi Hmsd) as (r & h' & Hrun).
  destruct (index_lt buffer 0) as [b0 Hb0]; [lia|].
  exists r, h', b0. split_and!; [done..| |].
  all: assert (∃ l o h0, r = VObject l ∧ Nav_decoded buffer l o h0 h')
    as (l & o & h0 & -> & Hnav)
    by (apply decodeMsd_inv in Hrun
          as (_ & l & o & -> & [(_ & _ & ?)|(_ & _ & _ & ?)]); eauto).
  all: destruct (index_byte _ _ _ Hb0) as [c ->].
  all: destruct (byte_bits c) as [Hbit1 Hbit2].
  - rewrite (Nav_decoded_rtto _ _ _ _ _ Hnav). unfold index_int32.
    rewrite Hb0. simpl default. by rewrite Hbit1.
  - destruct (Nav_decoded_alarms _ _ _ _ _ Hnav) as (a & Ha & _ & Hlow).
    rewrite (path_via _ _ _ _ _ Ha), Hlow, (battery_bits_present _ _ _ Hb0).
    rewrite Hbit2. by destruct (Z.testbit (byte_val c) 2).
Qed.

Lemma Nav_flags_from_byte_0_witness :
  ∃ r h' b0,
    index nav_buffer 0 = Some b0 ∧
    decodeMsd hciEirDataType nav_buffer VUndefined ∅ = (Normal r, h') ∧
    path h' r ["rtto"] = Some (VBoolean (Z.testbit b0 1)) ∧
    path h' r ["alarms"; "lowBattery"] = Some (VBoolean (Z.testbit b0 2)).
Proof.
  apply (Nav_flags_from_byte_0 hciEirDataType nav_buffer VUndefined ∅).
  - simpl. lia.
  - reflexivity.
  - left. reflexivity.
Defined.

(** X13.  The company identifier of a record that [decodeMsd] creates is
    0x8900 plus byte 0 of the buffer: its high byte is the model byte, which
    the decoder reads from index 1, inside the identifier. *)
Theorem companyIdentifier_holds_model E buffer msd (h : heap) :
  14 ≤ length buffer → index buffer 1 = Some DeviceModel.Nav →
  truthy msd = false →
  ∃ r h' b0,
    index buffer 0 = Some b0 ∧ (0 ≤ b0 < 256)%Z ∧
    decodeMsd E buffer msd h = (Normal r, h') ∧
    path h' r ["companyIdentifier"]
      = Some (VNumber (number_of_Z (0x8900 + b0))).
Proof.
  intros Hlen Hi Ht.
  destruct (decodeMsd_total E buffer msd h Hlen Hi) as (r & h' & Hrun);
    [by left|].
  destruct (index_lt buffer 0) as [b0 Hb0]; [lia|].
  exists r, h', b0. split; [done|].
  split; [by apply index_Some in Hb0 as [_ ?]|]. split; [done|].
  apply decodeMsd_inv in Hrun
    as (_ & l & o & -> & [(-> & _)|(_ & _ & (ci & Hci & ->) & Hnav)]); [done|].
  apply readUInt16LE_Normal in Hci as (lo & hi & Hlo & Hhi & ->).
  change (0 + 1)%Z with 1%Z in Hhi. rewrite Hb0 in Hlo. rewrite Hi in Hhi.
  simplify_eq.
  rewrite (Nav_decoded_frame _ _ _ _ _ Hnav)
    by (apply not_elem_of_keys; by repeat constructor).
  unfold new_record. lookups. do 3 f_equal. unfold uint16_le, DeviceModel.Nav. lia.
Qed.

Lemma companyIdentifier_holds_model_witness :
  ∃ r h' b0,
    index nav_buffer 0 = Some b0 ∧ (0 ≤ b0 < 256)%Z ∧
    decodeMsd hciEirDataType nav_buffer VUndefined ∅ = (Normal r, h') ∧
    path h' r ["companyIdentifier"]
      = Some (VNumber (number_of_Z (0x8900 + b0))).
Proof.
  apply (companyIdentifier_holds_model hciEirDataType nav_buffer VUndefined ∅).
  - simpl. lia.
  - reflexivity.
  - reflexivity.
Defined.

(** ** Decoding again *)

Lemma path_weaken (h h' : heap) v p a :
  h ⊆ h' → path h v p = Some a → path h' v p = Some a.
Proof.
  intros Hsub. revert v. induction p as [|k p IH]; intros v; [done|].
  cbn [path]. destruct v as [| | | | |l]; try done. cbn [lookup_prop].
  destruct (h !! l) as [o|] eqn:Hl; [|done].
  rewrite (lookup_weaken _ _ _ _ Hl Hsub). simpl.
  destruct (o !! k) as [v'|]; [|done]. simpl. apply IH.
Qed.

(** The values the pipeline decodes depend on the buffer alone. *)
Lemma Nav_decoded_same_leaves buffer l o (h h' : heap) l2 o2 (g g' : heap) p :
  Nav_decoded buffer l o h h' → Nav_decoded buffer l2 o2 g g' →
  p ∈ Nav_leaves →
  is_Some (path h' (VObject l) p) ∧
  path h' (VObject l) p = path g' (VObject l2) p.
Proof.
  intros Hnav Hnav2 Hp.
  pose proof Hnav as (_ & _ & _ & x & y & z & u & v & w & Hx & Hy & Hz & Hu
    & Hv & Hw & _).
  destruct (Nav_decoded_position _ _ _ _ _ Hnav _ _ _ Hx Hy Hz) as (Px & Py & Pz).
  destruct (Nav_decoded_position _ _ _ _ _ Hnav2 _ _ _ Hx Hy Hz) as (Qx & Qy & Qz).
  destruct (Nav_decoded_magneticField _ _ _ _ _ Hnav _ _ _ Hu Hv Hw)
    as (Pu & Pv & Pw).
  destruct (Nav_decoded_magneticField _ _ _ _ _ Hnav2 _ _ _ Hu Hv Hw)
    as (Qu & Qv & Qw).
  destruct (Nav_decoded_alarms _ _ _ _ _ Hnav) as (a & Pa & _ & Plow).
  destruct (Nav_decoded_alarms _ _ _ _ _ Hnav2) as (a2 & Qa & _ & Qlow).
  pose proof (Nav_decoded_model _ _ _ _ _ Hnav) as Pm.
  pose proof (Nav_decoded_model _ _ _ _ _ Hnav2) as Qm.
  pose proof (Nav_decoded_modelLabel _ _ _ _ _ Hnav) as Pl.
  pose proof (Nav_decoded_modelLabel _ _ _ _ _ Hnav2) as Ql.
  pose proof (Nav_decoded_rtto _ _ _ _ _ Hnav) as Pr.
  pose proof (Nav_decoded_rtto _ _ _ _ _ Hnav2) as Qr.
  pose proof (path_via _ _ _ ["lowBattery"] _ Pa) as Pb. rewrite Plow in Pb.
  pose proof (path_via _ _ _ ["lowBattery"] _ Qa) as Qb. rewrite Qlow in Qb.
  unfold Nav_leaves in Hp. rewrite !elem_of_cons in Hp.
  destruct Hp as [->|[->|[->|[->|[->|[->|[->|[->|[->|[->|Hnil]]]]]]]]]];
    [split; [eexists; eassumption|congruence]..|by apply elem_of_nil in Hnil].
Qed.

(** X14.  Decoding a second buffer into a record that was already decoded
    overwrites every decoded value: each of them is what decoding the
    second buffer alone gives, and the record's other properties are what
    they were before both. *)
Theorem decode_overwrites buffer1 buffer2 l o (h : heap) :
  14 ≤ length buffer1 → 14 ≤ length buffer2 → h !! l = Some o →
  ∃ h1 h2 h2',
    Nav_decoder buffer1 (VObject l) h = (Normal VUndefined, h1) ∧
    Nav_decoder buffer2 (VObject l) h1 = (Normal VUndefined, h2) ∧
    Nav_decoder buffer2 (VObject l) h = (Normal VUndefined, h2') ∧
    (∀ p, p ∈ Nav_leaves → path h2 (VObject l) p = path h2' (VObject l) p) ∧
    (∀ k, k ∉ Nav_keys → path h2 (VObject l) [k] = o !! k).
Proof.
  intros Hlen1 Hlen2 Hl.
  destruct (Nav_decoder_total buffer1 l o h Hlen1 Hl) as [h1 Hrun1].
  destruct (Nav_decoder_total buffer2 l o h Hlen2 Hl) as [h2' Hrun2'].
  pose proof Hrun1 as Hnav1.
  apply Nav_decoder_inv in Hnav1 as (? & o0 & [= <-] & Hl0 & _ & Hnav1).
  rewrite Hl in Hl0. injection Hl0 as <-.
  pose proof Hrun2' as Hnav2'.
  apply Nav_decoder_inv in Hnav2' as (? & o0 & [= <-] & Hl0 & _ & Hnav2').
  rewrite Hl in Hl0. injection Hl0 as <-.
  assert (∃ o1, h1 !! l = Some o1 ∧ ∀ k, k ∉ Nav_keys → o1 !! k = o !! k)
    as (o1 & Hl1 & Ho1).
  { pose proof Hnav1 as (lp & lm & la & ? & ? & ? & ? & ? & ? & _ & _ & _ & _
      & _ & _ & _ & _ & _ & _ & _ & _ & _ & _ & _ & ->).
    eexists. split; [apply lookup_insert_eq|]. intros k Hk.
    unfold Nav_keys in Hk. rewrite !not_elem_of_cons in Hk.
    destruct Hk as (? & ? & ? & ? & ? & ? & _). unfold Nav_record. by lookups. }
  destruct (Nav_decoder_total buffer2 l o1 h1 Hlen2 Hl1) as [h2 Hrun2].
  pose proof Hrun2 as Hnav2.
  apply Nav_decoder_inv in Hnav2 as (? & o0 & [= <-] & Hl0 & _ & Hnav2).
  rewrite Hl1 in Hl0. injection Hl0 as <-.
  exists h1, h2, h2'. split_and!; [done..| |].
  - intros p Hp. by apply (Nav_decoded_same_leaves _ _ _ _ _ _ _ _ _ _ Hnav2 Hnav2').
  - intros k Hk. rewrite (Nav_decoded_frame _ _ _ _ _ Hnav2) by done.
    by apply Ho1.
Qed.

Lemma decode_overwrites_witness :
  ∃ h1 h2 h2',
    Nav_decoder (nav_buffer ++ [x01]) (VObject 1%positive) one_object
      = (Normal VUndefined, h1) ∧
    Nav_decoder nav_buffer (VObject 1%positive) h1 = (Normal VUndefined, h2) ∧
    Nav_decoder nav_buffer (VObject 1%positive) one_object
      = (Normal VUndefined, h2') ∧
    (∀ p, p ∈ Nav_leaves →
          path h2 (VObject 1%positive) p = path h2' (VObject 1%positive) p) ∧
    (∀ k, k ∉ Nav_keys → path h2 (VObject 1%positive) [k] = (∅ : object) !! k).
Proof.
  apply (decode_overwrites (nav_buffer ++ [x01]) nav_buffer 1%positive ∅
           one_object).
  - simpl. lia.
  - simpl. lia.
  - reflexivity.
Defined.

(** X15.  Two calls of [decodeMsd] without a record, one after the other
    on the same buffer, return two different records with the same
    contents, and the second call leaves the first record as it was. *)
Theorem decodeMsd_twice E buffer (h : heap) :
  14 ≤ length buffer → index buffer 1 = Some DeviceModel.Nav →
  ∃ r1 h1 r2 h2,
    decodeMsd E buffer VUndefined h = (Normal r1, h1) ∧
    decodeMsd E buffer VUndefined h1 = (Normal r2, h2) ∧
    r1 ≠ r2 ∧
    ∀ p, p ∈ [["type"]; ["typeLabel"]; ["companyIdentifier"]] ++ Nav_leaves →
         is_Some (path h1 r1 p) ∧
         path h2 r1 p = path h1 r1 p ∧ path h2 r2 p = path h1 r1 p.
Proof.
  intros Hlen Hi.
  destruct (decodeMsd_total E buffer VUndefined h Hlen Hi) as (r1 & h1 & Hrun1);
    [by left|].
  destruct (decodeMsd_total E buffer VUndefined h1 Hlen Hi) as (r2 & h2 & Hrun2);
    [by left|].
  exists r1, h1, r2, h2. split_and!; [done..| |].
  all: apply decodeMsd_inv in Hrun1
    as (_ & l1 & o1 & -> & [(? & _)|(_ & Hl1 & (ci & Hci & ->) & Hnav1)]);
    [done|].
  all: apply decodeMsd_inv in Hrun2
    as (_ & l2 & o2 & -> & [(? & _)|(_ & Hl2 & (ci2 & Hci2 & ->) & Hnav2)]);
    [done|].
  all: rewrite Hci in Hci2; injection Hci2 as <-.
  all: assert (is_Some (h1 !! l1)) as [o1 Ho1]
    by (pose proof Hnav1 as (? & ? & ? & ? & ? & ? & ? & ? & ? & _ & _ & _ & _
          & _ & _ & _ & _ & _ & _ & _ & _ & _ & _ & _ & ->);
        rewrite lookup_insert_eq; eauto).
  - intros [= <-]. rewrite Hl2 in Ho1. discriminate.
  - intros p Hp.
    assert (h1 ⊆ h2) as Hsub.
    { apply map_subseteq_spec. intros i x Hix.
      apply (Nav_decoded_others _ _ _ _ _ Hnav2).
      - intros ->. rewrite Hl2 in Hix. discriminate.
      - rewrite lookup_insert_ne; [done|]. intros <-. rewrite Hl2 in Hix.
        discriminate. }
    assert (is_Some (path h1 (VObject l1) p) ∧
            path h1 (VObject l1) p = path h2 (VObject l2) p) as [[a Ha] Heq].
    { rewrite elem_of_app in Hp. destruct Hp as [Hp|Hp].
      - rewrite !elem_of_cons in Hp.
        destruct Hp as [->|[->|[->|Hnil]]]; [..|by apply elem_of_nil in Hnil].
        all: rewrite (Nav_decoded_frame _ _ _ _ _ Hnav1),
               (Nav_decoded_frame _ _ _ _ _ Hnav2)
          by (apply not_elem_of_keys; by repeat constructor).
        all: by split; [unfold new_record; lookups|].
      - by apply (Nav_decoded_same_leaves _ _ _ _ _ _ _ _ _ _ Hnav1 Hnav2). }
    split; [eauto|]. rewrite <- Heq, Ha. split; [|done].
    by apply (path_weaken h1).
Qed.

Lemma decodeMsd_twice_witness :
  ∃ r1 h1 r2 h2,
    decodeMsd hciEirDataType nav_buffer VUndefined ∅ = (Normal r1, h1) ∧
    decodeMsd hciEirDataType nav_buffer VUndefined h1 = (Normal r2, h2) ∧
    r1 ≠ r2 ∧
    ∀ p, p ∈ [["type"]; ["typeLabel"]; ["companyIdentifier"]] ++ Nav_leaves →
         is_Some (path h1 r1 p) ∧
         path h2 r1 p = path h1 r1 p ∧ path h2 r2 p = path h1 r1 p.
Proof.
  apply (decodeMsd_twice hciEirDataType nav_buffer ∅).
  - simpl. lia.
  - reflexivity.
Defined.

(** ** Order and reach of the field decoders *)

Lemma fresh_after_write (h : heap) l o o' :
  h !! l = Some o → fresh (dom (<[l := o']> h)) = fresh (dom h).
Proof. intros Hl. by rewrite dom_insert_lookup_L by eauto. Qed.

Lemma rtto_then_alloc (h : heap) l o r key p :
  h !! l = Some o → key ≠ "rtto" →
  <[l := <[key := VObject (fresh (dom (<[l := <["rtto" := r]> o]> h)))]>
            (<["rtto" := r]> o)]>
    (<[fresh (dom (<[l := <["rtto" := r]> o]> h)) := p]>
       (<[l := <["rtto" := r]> o]> h))
  = <[l := <["rtto" := r]> (<[key := VObject (fresh (dom h))]> o)]>
      (<[l := <[key := VObject (fresh (dom h))]> o]>
         (<[fresh (dom h) := p]> h)).
Proof.
  intros Hl Hkey. rewrite (fresh_after_write _ _ _ _ Hl).
  assert (fresh (dom h) ≠ l) as Hne by by eapply fresh_ne.
  rewrite (insert_insert_ne o "rtto" key) by done.
  apply map_eq. intros i.
  destruct (decide (i = l)) as [->|]; [by rewrite !lookup_insert_eq|].
  rewrite !(lookup_insert_ne _ l) by done.
  destruct (decide (i = fresh (dom h))) as [->|]; [by rewrite !lookup_insert_eq|].
  by rewrite !lookup_insert_ne by done.
Qed.

(** In the store of this development, where objects are maps without an
    order of keys, the two orders give the same outcome. *)
Lemma decodeRtto_swap buffer i batteryI l o (h : heap) :
  14 ≤ length buffer → h !! l = Some o →
  let msd := VObject l in
  bind (decodeRtto buffer i msd) (λ _, decodeAccelerometer buffer msd) h
    = bind (decodeAccelerometer buffer msd) (λ _, decodeRtto buffer i msd) h ∧
  bind (decodeRtto buffer i msd) (λ _, decodeMagneticField buffer msd) h
    = bind (decodeMagneticField buffer msd) (λ _, decodeRtto buffer i msd) h ∧
  bind (decodeRtto buffer i msd) (λ _, decodeAlarms buffer batteryI (-1) msd) h
    = bind (decodeAlarms buffer batteryI (-1) msd) (λ _, decodeRtto buffer i msd) h.
Proof.
  intros Hlen Hl msd. unfold msd.
  destruct (readInt16LE_long buffer 2) as [x Hx]; [lia..|].
  destruct (readInt16LE_long buffer 4) as [y Hy]; [lia..|].
  destruct (readInt16LE_long buffer 6) as [z Hz]; [lia..|].
  destruct (readInt16LE_long buffer 8) as [u Hu]; [lia..|].
  destruct (readInt16LE_long buffer 10) as [v Hv]; [lia..|].
  destruct (readInt16LE_long buffer 12) as [w Hw]; [lia..|].
  rewrite !(bind_run _ _ _ _ _ (decodeRtto_run _ _ _ _ _ Hl)).
  rewrite (bind_run _ _ _ _ _ (decodeAccelerometer_run _ _ _ _ _ _ _ Hx Hy Hz Hl)).
  rewrite (bind_run _ _ _ _ _ (decodeMagneticField_run _ _ _ _ _ _ _ Hu Hv Hw Hl)).
  rewrite (bind_run _ _ _ _ _ (decodeAlarms_run_absent _ _ _ _ _ Hl)).
  rewrite (decodeAccelerometer_run _ _ _ _ _ _ _ Hx Hy Hz
             (lookup_insert_eq h l _)).
  rewrite (decodeMagneticField_run _ _ _ _ _ _ _ Hu Hv Hw
             (lookup_insert_eq h l _)).
  rewrite (decodeAlarms_run_absent _ batteryI _ _ _ (lookup_insert_eq h l _)).
  rewrite !(decodeRtto_run _ _ _ _ _ (lookup_insert_eq _ l _)).
  split_and!; f_equal; by apply rtto_then_alloc.
Qed.

(** X16.  On a buffer of at least 14 bytes and a record of the store,
    [decodeRtto] can run before or after each of the other three field
    decoders of the pipeline: both orders end the same way, and in the two
    final stores every object has the same set of keys and every property
    path leads to the same value.  (The order in which the record
    enumerates its keys, which differs, is not part of the statement.) *)
Theorem decodeRtto_commutes buffer i batteryI l o (h : heap) other :
  14 ≤ length buffer → h !! l = Some o →
  other ∈ [decodeAccelerometer buffer; decodeMagneticField buffer;
           decodeAlarms buffer batteryI (-1)] →
  let msd := VObject l in
  let rtto_first := bind (decodeRtto buffer i msd) (λ _, other msd) h in
  let rtto_last := bind (other msd) (λ _, decodeRtto buffer i msd) h in
  rtto_first.1 = Normal tt ∧ rtto_last.1 = Normal tt ∧
  (∀ v, own_keys rtto_first.2 v = own_keys rtto_last.2 v) ∧
  (∀ v p, path rtto_first.2 v p = path rtto_last.2 v p).
Proof.
  intros Hlen Hl Hother msd rtto_first rtto_last.
  destruct (decodeRtto_swap buffer i batteryI l o h Hlen Hl) as (Ha & Hm & Hb).
  assert (rtto_first = rtto_last) as Heq.
  { unfold rtto_first, rtto_last, msd. rewrite !elem_of_cons in Hother.
    destruct Hother as [->|[->|[->|Hnil]]]; [done..|by apply elem_of_nil in Hnil]. }
  rewrite <- Heq. cut (rtto_first.1 = Normal tt); [by intros ->|].
  unfold rtto_first, msd.
  rewrite (bind_run _ _ _ _ _ (decodeRtto_run _ _ _ _ _ Hl)).
  destruct (readInt16LE_long buffer 2) as [x Hx]; [lia..|].
  destruct (readInt16LE_long buffer 4) as [y Hy]; [lia..|].
  destruct (readInt16LE_long buffer 6) as [z Hz]; [lia..|].
  destruct (readInt16LE_long buffer 8) as [u Hu]; [lia..|].
  destruct (readInt16LE_long buffer 10) as [v Hv]; [lia..|].
  destruct (readInt16LE_long buffer 12) as [w Hw]; [lia..|].
  rewrite !elem_of_cons in Hother.
  destruct Hother as [->|[->|[->|Hnil]]]; [..|by apply elem_of_nil in Hnil].
  - by rewrite (decodeAccelerometer_run _ _ _ _ _ _ _ Hx Hy Hz
                  (lookup_insert_eq h l _)).
  - by rewrite (decodeMagneticField_run _ _ _ _ _ _ _ Hu Hv Hw
                  (lookup_insert_eq h l _)).
  - by rewrite (decodeAlarms_run_absent _ batteryI _ _ _ (lookup_insert_eq h l _)).
Qed.

Lemma decodeRtto_commutes_witness :
  let msd := VObject 1%positive in
  let rtto_first :=
    bind (decodeRtto nav_buffer 0 msd) (λ _, decodeAccelerometer nav_buffer msd)
         one_object in
  let rtto_last :=
    bind (decodeAccelerometer nav_buffer msd) (λ _, decodeRtto nav_buffer 0 msd)
         one_object in
  rtto_first.1 = Normal tt ∧ rtto_last.1 = Normal tt ∧
  (∀ v, own_keys rtto_first.2 v = own_keys rtto_last.2 v) ∧
  (∀ v p, path rtto_first.2 v p = path rtto_last.2 v p).
Proof.
  apply (decodeRtto_commutes nav_buffer 0 0 1%positive ∅ one_object
           (decodeAccelerometer nav_buffer)).
  - simpl. lia.
  - reflexivity.
  - apply list_elem_of_here.
Defined.

(** X17.  Each vector is read from its own six bytes: two buffers of at
    least 14 bytes with the Nav model byte that agree on bytes 2 to 7
    decode to the same [position], and two that agree on bytes 8 to 13 to
    the same [magneticField], whatever their other bytes, records and
    stores are. *)
Theorem vectors_read_their_bytes E buffer1 buffer2 msd1 msd2 (h1 h2 : heap) :
  14 ≤ length buffer1 → 14 ≤ length buffer2 →
  index buffer1 1 = Some DeviceModel.Nav →
  index buffer2 1 = Some DeviceModel.Nav →
  record_arg h1 msd1 → record_arg h2 msd2 →
  ∃ r1 h1' r2 h2',
    decodeMsd E buffer1 msd1 h1 = (Normal r1, h1') ∧
    decodeMsd E buffer2 msd2 h2 = (Normal r2, h2') ∧
    ((∀ i, (2 ≤ i < 8)%Z → index buffer1 i = index buffer2 i) →
     ∀ k, k ∈ ["x"; "y"; "z"] →
          path h1' r1 ["position"; k] = path h2' r2 ["position"; k]) ∧
    ((∀ i, (8 ≤ i < 14)%Z → index buffer1 i = index buffer2 i) →
     ∀ k, k ∈ ["x"; "y"; "z"] →
          path h1' r1 ["magneticField"; k] = path h2' r2 ["magneticField"; k]).
Proof.
  intros Hlen1 Hlen2 Hi1 Hi2 Hmsd1 Hmsd2.
  destruct (decodeMsd_total E buffer1 msd1 h1 Hlen1 Hi1 Hmsd1) as (r1 & h1' & Hrun1).
  destruct (decodeMsd_total E buffer2 msd2 h2 Hlen2 Hi2 Hmsd2) as (r2 & h2' & Hrun2).
  exists r1, h1', r2, h2'. split; [done|]. split; [done|].
  assert (∃ l o h0, r1 = VObject l ∧ Nav_decoded buffer1 l o h0 h1')
    as (l1 & o1 & g1 & -> & Hnav1)
    by (apply decodeMsd_inv in Hrun1
          as (_ & l & o & -> & [(_ & _ & ?)|(_ & _ & _ & ?)]); eauto).
  assert (∃ l o h0, r2 = VObject l ∧ Nav_decoded buffer2 l o h0 h2')
    as (l2 & o2 & g2 & -> & Hnav2)
    by (apply decodeMsd_inv in Hrun2
          as (_ & l & o & -> & [(_ & _ & ?)|(_ & _ & _ & ?)]); eauto).
  assert (∀ offset, (0 ≤ offset)%Z → (offset + 2 ≤ 14)%Z →
            index buffer1 offset = index buffer2 offset →
            index buffer1 (offset + 1) = index buffer2 (offset + 1) →
            ∃ n, readInt16LE buffer1 offset = Normal n ∧
                 readInt16LE buffer2 offset = Normal n) as Hread.
  { intros offset ? ? Hlo Hhi.
    destruct (readInt16LE_long buffer1 offset) as [n Hn]; [lia..|].
    exists n. split; [done|]. unfold readInt16LE in *. by rewrite <- Hlo, <- Hhi. }
  split; intros Hsame k Hk.
  - destruct (Hread 2%Z) as (x & Hx1 & Hx2); [lia|lia|apply Hsame; lia..|].
    destruct (Hread 4%Z) as (y & Hy1 & Hy2); [lia|lia|apply Hsame; lia..|].
    destruct (Hread 6%Z) as (z & Hz1 & Hz2); [lia|lia|apply Hsame; lia..|].
    destruct (Nav_decoded_position _ _ _ _ _ Hnav1 _ _ _ Hx1 Hy1 Hz1)
      as (Px & Py & Pz).
    destruct (Nav_decoded_position _ _ _ _ _ Hnav2 _ _ _ Hx2 Hy2 Hz2)
      as (Qx & Qy & Qz).
    rewrite !elem_of_cons in Hk.
    destruct Hk as [->|[->|[->|Hnil]]]; [congruence..|by apply elem_of_nil in Hnil].
  - destruct (Hread 8%Z) as (x & Hx1 & Hx2); [lia|lia|apply Hsame; lia..|].
    destruct (Hread 10%Z) as (y & Hy1 & Hy2); [lia|lia|apply Hsame; lia..|].
    destruct (Hread 12%Z) as (z & Hz1 & Hz2); [lia|lia|apply Hsame; lia..|].
    destruct (Nav_decoded_magneticField _ _ _ _ _ Hnav1 _ _ _ Hx1 Hy1 Hz1)
      as (Px & Py & Pz).
    destruct (Nav_decoded_magneticField _ _ _ _ _ Hnav2 _ _ _ Hx2 Hy2 Hz2)
      as (Qx & Qy & Qz).
    rewrite !elem_of_cons in Hk.
    destruct Hk as [->|[->|[->|Hnil]]]; [congruence..|by apply elem_of_nil in Hnil].
Qed.

Lemma vectors_read_their_bytes_witness :
  ∃ r1 h1' r2 h2',
    decodeMsd hciEirDataType nav_buffer VUndefined ∅ = (Normal r1, h1') ∧
    decodeMsd hciEirDataType (<[0 := x02]> nav_buffer) (VObject 1%positive)
      one_object = (Normal r2, h2') ∧
    ((∀ i, (2 ≤ i < 8)%Z → index nav_buffer i = index (<[0 := x02]> nav_buffer) i) →
     ∀ k, k ∈ ["x"; "y"; "z"] →
          path h1' r1 ["position"; k] = path h2' r2 ["position"; k]) ∧
    ((∀ i, (8 ≤ i < 14)%Z → index nav_buffer i = index (<[0 := x02]> nav_buffer) i) →
     ∀ k, k ∈ ["x"; "y"; "z"] →
          path h1' r1 ["magneticField"; k] = path h2' r2 ["magneticField"; k]).
Proof.
  apply (vectors_read_their_bytes hciEirDataType nav_buffer (<[0 := x02]> nav_buffer)
           VUndefined (VObject 1%positive) ∅ one_object).
  - simpl. lia.
  - simpl. lia.
  - reflexivity.
  - reflexivity.
  - left. reflexivity.
  - right. exists 1%positive. split; [reflexivity|]. exists ∅. reflexivity.
Defined.

(** X18.  The two vector decoders read their three integers before they
    write: on a buffer too short for them ([decodeAccelerometer] below 8
    bytes, [decodeMagneticField] below 14) they throw a [RangeError] and the
    store is as it was, for any record; on a long enough buffer and a
    record of the store they return. *)
Theorem vector_decoders_bounds buffer msd (h : heap) :
  (length buffer < 8 →
   decodeAccelerometer buffer msd h = (Throw RangeError, h)) ∧
  (length buffer < 14 →
   decodeMagneticField buffer msd h = (Throw RangeError, h)) ∧
  (∀ l, msd = VObject l → is_Some (h !! l) →
     (8 ≤ length buffer →
      ∃ h', decodeAccelerometer buffer msd h = (Normal tt, h')) ∧
     (14 ≤ length buffer →
      ∃ h', decodeMagneticField buffer msd h = (Normal tt, h'))).
Proof.
  split_and!.
  - apply decodeAccelerometer_short.
  - apply decodeMagneticField_short.
  - intros l -> [o Hl]. split; intros Hlen.
    + destruct (readInt16LE_long buffer 2) as [x Hx]; [lia..|].
      destruct (readInt16LE_long buffer 4) as [y Hy]; [lia..|].
      destruct (readInt16LE_long buffer 6) as [z Hz]; [lia..|].
      rewrite (decodeAccelerometer_run _ _ _ _ _ _ _ Hx Hy Hz Hl). eauto.
    + destruct (readInt16LE_long buffer 8) as [x Hx]; [lia..|].
      destruct (readInt16LE_long buffer 10) as [y Hy]; [lia..|].
      destruct (readInt16LE_long buffer 12) as [z Hz]; [lia..|].
      rewrite (decodeMagneticField_run _ _ _ _ _ _ _ Hx Hy Hz Hl). eauto.
Qed.

Lemma vector_decoders_bounds_witness :
  decodeAccelerometer [x4c; x89; x01; x00; x02; x00; x03] (VObject 1%positive)
    one_object = (Throw RangeError, one_object) ∧
  decodeMagneticField (take 13 nav_buffer) (VObject 1%positive) one_object
    = (Throw RangeError, one_object) ∧
  ∃ h', decodeAccelerometer nav_buffer (VObject 1%positive) one_object
          = (Normal tt, h').
Proof.
  split; [|split].
  - apply (vector_decoders_bounds [x4c; x89; x01; x00; x02; x00; x03]
             (VObject 1%positive) one_object).
    simpl. lia.
  - apply (vector_decoders_bounds (take 13 nav_buffer) (VObject 1%positive)
             one_object).
    simpl. lia.
  - apply (proj2 (proj2 (vector_decoders_bounds nav_buffer (VObject 1%positive)
                           one_object)) 1%positive).
    + reflexivity.
    + exists ∅. reflexivity.
    + simpl. lia.
Defined.

(** ** The text of the unknown-model error *)

Lemma string_length_app (s t : string) :
  String.length (s +:+ t) = String.length s + String.length t.
Proof. induction s as [|a s IH]; simpl; [done|by rewrite IH]. Qed.

Lemma string_app_inv_tail (s1 s2 t : string) :
  s1 +:+ t = s2 +:+ t → s1 = s2.
Proof.
  revert s2. induction s1 as [|a s1 IH]; intros [|b s2] Heq; simpl in Heq.
  - done.
  - apply (f_equal String.length) in Heq.
    rewrite !string_length_app in Heq. simpl in Heq. lia.
  - apply (f_equal String.length) in Heq.
    rewrite !string_length_app in Heq. simpl in Heq. lia.
  - injection Heq as -> Heq. f_equal. by apply IH.
Qed.

Lemma pretty_byte_not_undefined (c : byte) : pretty (byte_val c) ≠ "undefined".
Proof. destruct c; vm_compute; discriminate. Qed.

Lemma ToString_index_inj buffer1 buffer2 i j :
  ToString (index buffer1 i) = ToString (index buffer2 j) →
  index buffer1 i = index buffer2 j.
Proof.
  destruct (index buffer1 i) as [n1|] eqn:H1, (index buffer2 j) as [n2|] eqn:H2;
    simpl; intros Heq.
  - f_equal. by apply (inj pretty).
  - destruct (index_byte _ _ _ H1) as [c ->].
    by apply pretty_byte_not_undefined in Heq.
  - destruct (index_byte _ _ _ H2) as [c ->]. symmetry in Heq.
    by apply pretty_byte_not_undefined in Heq.
  - done.
Qed.

(** X19.  The unknown-device-model error tells the identifiers apart: when
    [decodeMsd] fails on a buffer whose byte at index 1 is not a registered
    model, any call that ends the same way was made on a buffer with the
    same byte (or the same lack of a byte) at index 1. *)
Theorem unknown_model_error_identifies E buffer1 buffer2 msd1 msd2
    (h1 h2 : heap) :
  index buffer1 1 ≠ Some DeviceModel.Nav →
  (decodeMsd E buffer1 msd1 h1).1 = (decodeMsd E buffer2 msd2 h2).1 →
  index buffer1 1 = index buffer2 1.
Proof.
  intros Hne Heq. rewrite decodeMsd_unknown in Heq by done.
  destruct (decide (index buffer2 1 = Some DeviceModel.Nav)) as [Hi|Hi].
  - symmetry in Heq. by apply decodeMsd_no_Error in Heq.
  - rewrite decodeMsd_unknown in Heq by done. simpl in Heq.
    injection Heq as Heq. unfold unknown_model_message in Heq.
    apply (inj (String.app _)) in Heq. apply string_app_inv_tail in Heq.
    by apply ToString_index_inj.
Qed.

Lemma unknown_model_error_identifies_witness :
  index [x4c; xff] 1 = index [x00; xff; x01] 1.
Proof.
  apply (unknown_model_error_identifies hciEirDataType [x4c; xff] [x00; xff; x01]
           VUndefined (VObject 1%positive) ∅ one_object).
  - discriminate.
  - reflexivity.
Defined.

(** ** The identity of the record *)

Lemma bind_assoc {A B C} (m : M A) (k : A → M B) (k' : B → M C) h :
  bind (bind m k) k' h = bind m (λ a, bind (k a) k') h.
Proof. unfold bind. by destruct (m h) as [[a|e] h1]. Qed.

(** The Nav decoder is the two assignments of the identity followed by the
    field decoders, in the order of [field_decoders]. *)
Lemma Nav_decoder_steps buffer msd (h : heap) :
  Nav_decoder buffer msd h =
  (let* _ := set_prop msd "model" (VNumber (number_of_Z DeviceModel.Nav)) in
   let* _ := set_prop msd "modelLabel" (VString "iNode Nav") in
   let* _ := run_each (field_decoders buffer) msd in
   ret VUndefined) h.
Proof.
  unfold Nav_decoder. apply bind_ext. intros _ h1. apply bind_ext. intros _ h2.
  unfold field_decoders. cbn [run_each].
  rewrite bind_assoc. apply bind_ext. intros _ h3.
  rewrite bind_assoc. apply bind_ext. intros _ h4.
  rewrite bind_assoc. apply bind_ext. intros _ h5.
  rewrite bind_assoc. apply bind_ext. intros _ h6.
  reflexivity.
Qed.

(** However the pipeline ends, the record has its identity. *)
Lemma Nav_decoder_identity_written buffer l o (h : heap) :
  h !! l = Some o →
  path (Nav_decoder buffer (VObject l) h).2 (VObject l) ["model"]
    = Some (VNumber 137) ∧
  path (Nav_decoder buffer (VObject l) h).2 (VObject l) ["modelLabel"]
    = Some (VString "iNode Nav").
Proof.
  intros Hl. destruct (decide (length buffer < 14)) as [Hlt|Hge].
  - destruct (Nav_decoder_short14 buffer l o h Hlt Hl)
      as (h' & o' & Hrun & Hl' & Hmodel & Hlabel & _).
    rewrite Hrun. cbn [snd]. rewrite !path_single, Hl'. simpl.
    by rewrite Hmodel, Hlabel.
  - destruct (Nav_decoder_total buffer l o h) as [h' Hrun]; [lia|done|].
    rewrite Hrun. cbn [snd].
    apply Nav_decoder_inv in Hrun as (l' & o' & [= <-] & _ & _ & Hnav).
    by rewrite (Nav_decoded_model _ _ _ _ _ Hnav),
      (Nav_decoded_modelLabel _ _ _ _ _ Hnav).
Qed.

(** However a field decoder ends, it leaves the properties it does not
    assign as they were. *)
Lemma field_decoder_keeps_always buffer step l o (h : heap) k :
  step ∈ field_decoders buffer →
  k ∉ ["position"; "magneticField"; "rtto"; "alarms"] →
  h !! l = Some o →
  path (step (VObject l) h).2 (VObject l) [k] = o !! k.
Proof.
  intros Hstep Hk Hl.
  destruct (step (VObject l) h) as [[u|e] h'] eqn:Hrun; cbn [snd].
  { by apply (field_decoder_keeps buffer step l o h u h' k). }
  assert (h' = h) as ->; [|by rewrite path_single, Hl].
  unfold field_decoders in Hstep. rewrite !elem_of_cons in Hstep.
  destruct Hstep as [->|[->|[->|[->|Hnil]]]].
  - destruct (decide (length buffer < 8)) as [Hlt|Hge].
    + rewrite decodeAccelerometer_short in Hrun by done. by simplify_eq.
    + destruct (readInt16LE_long buffer 2) as [x Hx]; [lia..|].
      destruct (readInt16LE_long buffer 4) as [y Hy]; [lia..|].
      destruct (readInt16LE_long buffer 6) as [z Hz]; [lia..|].
      rewrite (decodeAccelerometer_run _ _ _ _ _ _ _ Hx Hy Hz Hl) in Hrun.
      discriminate.
  - destruct (decide (length buffer < 14)) as [Hlt|Hge].
    + rewrite decodeMagneticField_short in Hrun by done. by simplify_eq.
    + destruct (readInt16LE_long buffer 8) as [x Hx]; [lia..|].
      destruct (readInt16LE_long buffer 10) as [y Hy]; [lia..|].
      destruct (readInt16LE_long buffer 12) as [z Hz]; [lia..|].
      rewrite (decodeMagneticField_run _ _ _ _ _ _ _ Hx Hy Hz Hl) in Hrun.
      discriminate.
  - rewrite (decodeRtto_run _ _ _ _ _ Hl) in Hrun. discriminate.
  - rewrite (decodeAlarms_run_absent _ _ _ _ _ Hl) in Hrun. discriminate.
  - by apply elem_of_nil in Hnil.
Qed.

(** C9.  The Nav pipeline is the assignment of [model] and [modelLabel]
    followed by the four field decoders, in this order.  So on a record of
    the store the two fields are 0x89 and "iNode Nav" however the pipeline
    ends, after a return and after a throw alike; each of the four field
    decoders, however it ends, leaves both fields as it found them; and
    whenever [decodeMsd] returns, with or without a record from the caller,
    which it does on every buffer of at least 14 bytes with the Nav model
    byte, the returned record has the two fields. *)
Theorem Nav_identity E buffer msd (h : heap) :
  Nav_decoder buffer msd h =
    (let* _ := set_prop msd "model" (VNumber (number_of_Z DeviceModel.Nav)) in
     let* _ := set_prop msd "modelLabel" (VString "iNode Nav") in
     let* _ := run_each (field_decoders buffer) msd in
     ret VUndefined) h ∧
  (∀ l, msd = VObject l → is_Some (h !! l) →
     path (Nav_decoder buffer msd h).2 msd ["model"] = Some (VNumber 137) ∧
     path (Nav_decoder buffer msd h).2 msd ["modelLabel"]
       = Some (VString "iNode Nav")) ∧
  (∀ r h', Nav_decoder buffer msd h = (Normal r, h') →
     path h' msd ["model"] = Some (VNumber 137) ∧
     path h' msd ["modelLabel"] = Some (VString "iNode Nav")) ∧
  (∀ r h', decodeMsd E buffer msd h = (Normal r, h') →
     path h' r ["model"] = Some (VNumber 137) ∧
     path h' r ["modelLabel"] = Some (VString "iNode Nav")) ∧
  (14 ≤ length buffer → index buffer 1 = Some DeviceModel.Nav →
   record_arg h msd → ∃ r h', decodeMsd E buffer msd h = (Normal r, h')) ∧
  (∀ step l o,
     step ∈ field_decoders buffer → msd = VObject l → h !! l = Some o →
     path (step msd h).2 msd ["model"] = o !! "model" ∧
     path (step msd h).2 msd ["modelLabel"] = o !! "modelLabel").
Proof.
  split_and!.
  - apply Nav_decoder_steps.
  - intros l -> [o Hl]. by apply (Nav_decoder_identity_written buffer l o).
  - intros r h' Hrun.
    apply Nav_decoder_inv in Hrun as (l & o & -> & _ & _ & Hnav).
    by rewrite (Nav_decoded_model _ _ _ _ _ Hnav),
      (Nav_decoded_modelLabel _ _ _ _ _ Hnav).
  - intros r h' Hrun.
    assert (∃ l o h0, r = VObject l ∧ Nav_decoded buffer l o h0 h')
      as (l & o & h0 & -> & Hnav).
    { apply decodeMsd_inv in Hrun
        as (_ & l & o & -> & [(_ & _ & ?)|(_ & _ & _ & ?)]); eauto. }
    by rewrite (Nav_decoded_model _ _ _ _ _ Hnav),
      (Nav_decoded_modelLabel _ _ _ _ _ Hnav).
  - apply decodeMsd_total.
  - intros step l o Hstep -> Hl.
    split; apply (field_decoder_keeps_always buffer); try done;
      apply not_elem_of_keys; by repeat constructor.
Qed.

Lemma Nav_identity_witness :
  (path (Nav_decoder [x4c; x89] (VObject 1%positive) one_object).2
     (VObject 1%positive) ["model"] = Some (VNumber 137) ∧
   path (Nav_decoder [x4c; x89] (VObject 1%positive) one_object).2
     (VObject 1%positive) ["modelLabel"] = Some (VString "iNode Nav")) ∧
  ∃ r h', decodeMsd hciEirDataType nav_buffer (VObject 1%positive) one_object
            = (Normal r, h') ∧
          path h' r ["model"] = Some (VNumber 137) ∧
          path h' r ["modelLabel"] = Some (VString "iNode Nav").
Proof.
  split.
  - destruct (Nav_identity hciEirDataType [x4c; x89] (VObject 1%positive)
                one_object) as (_ & Hwritten & _).
    apply (Hwritten 1%positive); [reflexivity|]. exists ∅. reflexivity.
  - destruct (Nav_identity hciEirDataType nav_buffer (VObject 1%positive)
                one_object) as (_ & _ & _ & Hfields & Hreturns & _).
    destruct Hreturns as (r & h' & Hrun).
    + simpl. lia.
    + reflexivity.
    + right. exists 1%positive. split; [reflexivity|]. exists ∅. reflexivity.
    + exists r, h'. split; [exact Hrun|]. exact (Hfields r h' Hrun).
Defined.
